(** * pubmed-loader: bulk retrieval of PubMed records

    A shallow embedding of [data_sources/PubMed.py] (classes [CustomPubMed]
    and [ArticleLoader]) and the properties its specification states.

    Conventions of the embedding:
    - Python [str] is [string]; an [ascii] stands for a code point below 256.
    - Python [int] is [Z]; [None] is [option]'s [None].
    - a [dict] is an insertion-ordered association list ([Py.dict]).
    - an XML element of [xml.etree.ElementTree] is an [ET.Element] tree.
    - code that raises returns an [outcome]; loops that Python writes as
      [while True] take a fuel argument and answer [Timeout] when it ends. *)

From Stdlib Require Import ZArith List String Ascii Bool Lia Arith.
From Stdlib Require Import DecimalString.
Import ListNotations.

Set Warnings "-register-all".
Open Scope string_scope.
Open Scope list_scope.

(* ================================================================== *)
(** ** Text: the [str] methods the program calls                       *)
(* ================================================================== *)

Module Text.

(** [str.isspace] restricted to code points below 256: TAB..CR, FS..US,
    SPACE, NEL (0x85) and NBSP (0xA0). *)
Definition isspace (c : ascii) : bool :=
  let n := N_of_ascii c in
  (((9 <=? n) && (n <=? 13)) || ((28 <=? n) && (n <=? 32))
   || (n =? 133) || (n =? 160))%N.

Fixpoint lstrip (s : string) : string :=
  match s with
  | EmptyString => EmptyString
  | String c r => if isspace c then lstrip r else s
  end.

Fixpoint rstrip (s : string) : string :=
  match s with
  | EmptyString => EmptyString
  | String c r =>
      match rstrip r with
      | EmptyString => if isspace c then EmptyString else String c EmptyString
      | r' => String c r'
      end
  end.

(** [s.strip()] *)
Definition strip (s : string) : string := lstrip (rstrip s).

(** Truth value of a [str]: non-empty. *)
Definition truthy (s : string) : bool :=
  match s with EmptyString => false | _ => true end.

(** Truth value of an [Optional[str]]. *)
Definition otruthy (o : option string) : bool :=
  match o with Some s => truthy s | None => false end.

Fixpoint zeros (n : nat) : string :=
  match n with O => EmptyString | S k => String "0" (zeros k) end.

(** [s.zfill(width)]: pad with ASCII zeros on the left, after a leading
    sign when there is one. *)
Definition zfill (width : nat) (s : string) : string :=
  let fill := zeros (width - String.length s) in
  match s with
  | String c r =>
      if (Ascii.eqb c "+" || Ascii.eqb c "-")%bool
      then String c (fill ++ r)
      else fill ++ s
  | EmptyString => fill
  end.

(** ASCII lower-casing; below code point 256 no other character matches a
    lower-case ASCII letter under [re.IGNORECASE]. *)
Definition lower_ascii (c : ascii) : ascii :=
  let n := N_of_ascii c in
  if ((65 <=? n) && (n <=? 90))%N then ascii_of_N (n + 32) else c.

Fixpoint lower (s : string) : string :=
  match s with
  | EmptyString => EmptyString
  | String c r => String (lower_ascii c) (lower r)
  end.

(** [s[:n]] *)
Definition prefix_slice (n : nat) (s : string) : string := substring 0 n s.

(** [" ".join(parts)] *)
Fixpoint join (sep : string) (parts : list string) : string :=
  match parts with
  | [] => EmptyString
  | [p] => p
  | p :: ps => p ++ sep ++ join sep ps
  end.

(** [''.join(parts)] *)
Definition concat_all (parts : list string) : string :=
  fold_right String.append EmptyString parts.

(** Decimal rendering of a natural number, [str(n)]. *)
Definition of_nat (n : nat) : string :=
  NilEmpty.string_of_uint (Nat.to_uint n).

(** [f"{n:02}"] *)
Definition fmt02 (n : nat) : string := zfill 2 (of_nat n).

Definition nl : string := String (ascii_of_nat 10) EmptyString.

End Text.

(* ================================================================== *)
(** ** ET: the part of [xml.etree.ElementTree] the program uses        *)
(* ================================================================== *)

Module ET.

Inductive Element : Type :=
  Elem (tag : string) (attrib : list (string * string))
       (text : option string) (children : list Element)
       (tail : option string).

Definition tag (e : Element) : string :=
  match e with Elem t _ _ _ _ => t end.
Definition attrib (e : Element) : list (string * string) :=
  match e with Elem _ a _ _ _ => a end.
Definition text (e : Element) : option string :=
  match e with Elem _ _ x _ _ => x end.
Definition children (e : Element) : list Element :=
  match e with Elem _ _ _ c _ => c end.
Definition tail (e : Element) : option string :=
  match e with Elem _ _ _ _ x => x end.

(** [e.iter()]: the element and its descendants in document order. *)
Fixpoint iter (e : Element) : list Element :=
  match e with
  | Elem _ _ _ cs _ => e :: flat_map iter cs
  end.

(** Proper descendants, the node set of [.//]. *)
Definition descendants (e : Element) : list Element :=
  flat_map iter (children e).

Definition has_tag (t : string) (e : Element) : bool := String.eqb (tag e) t.

(** [e.findall(".//t")] *)
Definition findall_desc (t : string) (e : Element) : list Element :=
  filter (has_tag t) (descendants e).

(** [e.findall("t")] *)
Definition findall_child (t : string) (e : Element) : list Element :=
  filter (has_tag t) (children e).

(** [e.findall(".//a/b")] *)
Definition findall_desc_child (a b : string) (e : Element) : list Element :=
  flat_map (findall_child b) (findall_desc a e).

(** [e.find(".//t")] *)
Definition find_desc (t : string) (e : Element) : option Element :=
  hd_error (findall_desc t e).

(** [e.find(".//a/b")] *)
Definition find_desc_child (a b : string) (e : Element) : option Element :=
  hd_error (findall_desc_child a b e).

(** The text [findtext] reports for a found element: [elem.text or ""]. *)
Definition text_or_empty (e : Element) : string :=
  match text e with Some s => s | None => EmptyString end.

(** [e.findtext(".//t")]: [None] when no element matches. *)
Definition findtext_desc (t : string) (e : Element) : option string :=
  option_map text_or_empty (find_desc t e).

(** [e.findtext("t")] *)
Definition findtext_child (t : string) (e : Element) : option string :=
  option_map text_or_empty (hd_error (findall_child t e)).

Definition opt_text (o : option string) : list string :=
  match o with
  | Some s => if Text.truthy s then [s] else []
  | None => []
  end.

(** [e.itertext()]: own text, then for every child its inner text and its
    tail, skipping empty pieces. *)
Fixpoint itertext (e : Element) : list string :=
  match e with
  | Elem _ _ tx cs _ =>
      opt_text tx
      ++ flat_map (fun c => itertext c ++ opt_text (tail c)) cs
  end.

(** [e.get(key)] *)
Fixpoint assoc_get (key : string) (l : list (string * string)) : option string :=
  match l with
  | [] => None
  | (k, v) :: r => if String.eqb k key then Some v else assoc_get key r
  end.

Definition get (key : string) (e : Element) : option string :=
  assoc_get key (attrib e).

End ET.

(* ================================================================== *)
(** ** Py: exceptions and dictionaries                                 *)
(* ================================================================== *)

Module Py.

Inductive exn : Type :=
| ValueError      (* strptime on text that is no month name *)
| HTTPError       (* [response.raise_for_status()] *)
| ParseError      (* a payload [ET.fromstring] or [int] rejects *)
| NameError       (* a name that is bound nowhere *)
| OSError.        (* a failing file operation *)

(** What running a piece of code gives: a value, a raised exception, or
    no answer within the fuel given to a loop. *)
Inductive outcome (A : Type) : Type :=
| Ret (a : A)
| Raise (e : exn)
| Timeout.
Arguments Ret {A} a.
Arguments Raise {A} e.
Arguments Timeout {A}.

(** The values the normalizer stores: [None], a [str], a list of [str]. *)
Inductive value : Type :=
| VNone
| VStr (s : string)
| VList (l : list string).

Definition of_opt (o : option string) : value :=
  match o with Some s => VStr s | None => VNone end.

(** A [dict] with [str] keys, in insertion order. *)
Definition dict : Type := list (string * value).

(** [d[k] = v]: overwrite in place, or append a new key. *)
Fixpoint set (k : string) (v : value) (d : dict) : dict :=
  match d with
  | [] => [(k, v)]
  | (k', v') :: r =>
      if String.eqb k' k then (k', v) :: r else (k', v') :: set k v r
  end.

(** [d.get(k)] *)
Fixpoint get (k : string) (d : dict) : option value :=
  match d with
  | [] => None
  | (k', v') :: r => if String.eqb k' k then Some v' else get k r
  end.

(** [d.update(other)] *)
Definition update (d other : dict) : dict :=
  fold_left (fun acc kv => set (fst kv) (snd kv) acc) other d.

(** [k in d] *)
Definition has_key (k : string) (d : dict) : bool :=
  existsb (fun kv => String.eqb (fst kv) k) d.

End Py.

(* ================================================================== *)
(** ** CustomPubMed, part 1: the record normalizer                     *)
(* ================================================================== *)

Module Normalizer.
Import Text ET Py.
Local Open Scope string_scope.

(** The abbreviated month names of the C locale, lower-cased, as
    [_strptime] keeps them for the [%b] directive. *)
Definition a_month : list string :=
  ["jan"; "feb"; "mar"; "apr"; "may"; "jun";
   "jul"; "aug"; "sep"; "oct"; "nov"; "dec"].

Fixpoint index_of (s : string) (l : list string) (i : nat) : option nat :=
  match l with
  | [] => None
  | x :: r => if String.eqb x s then Some i else index_of s r (S i)
  end.

(** [datetime.datetime.strptime(data, '%b').month]: the whole of [data]
    has to be one abbreviated month name, compared without case. *)
Definition strptime_b (data : string) : outcome nat :=
  match index_of (lower data) a_month 1 with
  | Some m => Ret m
  | None => Raise ValueError
  end.

(** [_convert_month_to_number] (lines 262-269): the [ValueError] of
    [strptime] is caught here, and the text is handed back as it is. *)
Definition _convert_month_to_number (month_str : string) : outcome string :=
  match strptime_b (prefix_slice 3 month_str) with
  | Ret m => Ret (fmt02 m)
  | Raise ValueError => Ret month_str
  | Raise e => Raise e
  | Timeout => Timeout
  end.

Definition or_empty (o : option string) : string :=
  match o with
  | Some s => s
  | None => EmptyString
  end.

(** Lines 203-227. [year], [month], [day] are the [findtext] results;
    inside a branch they are known to be non-empty strings. *)
Definition article_pub_date (year month day : option string) : string :=
  let y := or_empty year in
  let m := or_empty month in
  let d := or_empty day in
  if otruthy year && otruthy month && otruthy day then
    match _convert_month_to_number m with
    | Ret month_num => y ++ "-" ++ month_num ++ "-" ++ zfill 2 d
    | _ => y ++ "-" ++ m ++ "-" ++ d          (* the [except:] of line 214 *)
    end
  else if otruthy year && otruthy month then
    match _convert_month_to_number m with
    | Ret month_num => y ++ "-" ++ month_num
    | _ => y ++ "-" ++ m                      (* the [except:] of line 220 *)
    end
  else if otruthy year then y
  else "Unknown".

Definition publication_date_article (article_element : Element) : string :=
  match find_desc "PubDate" article_element with
  | Some pub_date =>
      article_pub_date (findtext_child "Year" pub_date)
                       (findtext_child "Month" pub_date)
                       (findtext_child "Day" pub_date)
  | None => "Unknown"
  end.

(** The inner text of an element, stripped:
    [''.join(e.itertext()).strip()]. *)
Definition inner_text (e : Element) : string :=
  strip (concat_all (itertext e)).

(** One turn of the loop of lines 174-186 over the state
    [(abstract_text, current_abstracts)]. *)
Definition abstract_step (st : string * list string) (abstract_section : Element)
  : string * list string :=
  let '(abstract_text, current_abstracts) := st in
  let section_text := inner_text abstract_section in
  if existsb (String.eqb section_text) current_abstracts then st
  else
    let current_abstracts' := (current_abstracts ++ [section_text])%list in
    match ET.get "Label" abstract_section with
    | Some label =>
        if truthy label
        then (abstract_text ++ label ++ ": " ++ section_text ++ nl,
              current_abstracts')
        else (abstract_text ++ section_text ++ nl, current_abstracts')
    | None => (abstract_text ++ section_text ++ nl, current_abstracts')
    end.

(** Lines 169-187: the value stored under ["Abstract"]. *)
Definition abstract_of (article_element : Element) : string :=
  let abstract_text :=
    match find_desc "Abstract" article_element with
    | Some abstract =>
        fst (fold_left abstract_step (findall_child "AbstractText" abstract)
                       (EmptyString, []))
    | None => EmptyString
    end in
  if truthy abstract_text then strip abstract_text else EmptyString.

(** Lines 190-201 (and 283-294): one display name per author entry. *)
Definition author_name (author : Element) : string :=
  let last_name := or_empty (findtext_child "LastName" author) in
  let fore_name := or_empty (findtext_child "ForeName" author) in
  match findtext_child "CollectiveName" author with
  | Some collective_name =>
      if truthy collective_name then collective_name
      else strip (join " " [fore_name; last_name])
  | None => strip (join " " [fore_name; last_name])
  end.

Definition authors_of (e : Element) : list string :=
  map author_name (findall_desc_child "AuthorList" "Author" e).

(** Lines 230-234 (and 319-323). *)
Definition keywords_of (e : Element) : list string :=
  flat_map (fun keyword =>
              match text keyword with
              | Some t => if truthy t then [strip t] else []
              | None => []
              end)
           (findall_desc_child "KeywordList" "Keyword" e).

(** [x.text.strip()] when the element exists and has text, else
    ["Unknown"] (journal, publisher, copyright). *)
Definition text_or_unknown (o : option Element) : string :=
  match o with
  | Some x =>
      match text x with
      | Some t => if truthy t then strip t else "Unknown"
      | None => "Unknown"
      end
  | None => "Unknown"
  end.

(** Lines 244-249: the dict [sections], keyed by label. *)
Definition sections_step (sections : dict) (abstract_section : Element) : dict :=
  let section_content := inner_text abstract_section in
  match ET.get "Label" abstract_section with
  | Some label =>
      if truthy label && truthy section_content
      then set label (VStr section_content) sections
      else sections
  | None => sections
  end.

Definition sections_of (article_element : Element) : dict :=
  fold_left sections_step
            (findall_desc_child "Abstract" "AbstractText" article_element) [].

(** [parse_pubmed_article] (lines 155-260). *)
Definition parse_pubmed_article (article_element : Element) : dict :=
  let d := set "PMID" (of_opt (findtext_desc "PMID" article_element)) [] in
  let d := set "Title"
               (match find_desc "ArticleTitle" article_element with
                | Some title_element => VStr (inner_text title_element)
                | None => VStr "No Title Available"
                end) d in
  let d := set "Abstract" (VStr (abstract_of article_element)) d in
  let d := set "Authors" (VList (authors_of article_element)) d in
  let d := set "PublicationDate" (VStr (publication_date_article article_element)) d in
  let d := set "Keywords" (VList (keywords_of article_element)) d in
  let d := set "Journal"
               (VStr (text_or_unknown (find_desc_child "Journal" "Title" article_element))) d in
  let sections := sections_of article_element in
  let d := match sections with [] => d | _ => update d sections end in
  set "Copyright"
      (VStr (text_or_unknown (find_desc "CopyrightInformation" article_element))) d.

(** Lines 297-316: the book variant pads month and day, with no month
    names. The [try] of line 303 holds the two [zfill] calls only, which
    cannot raise on a [str]. *)
Definition book_pub_date (year month day : option string) : string :=
  if otruthy year && otruthy month && otruthy day then
    or_empty year ++ "-" ++ zfill 2 (or_empty month) ++ "-" ++ zfill 2 (or_empty day)
  else if otruthy year && otruthy month then
    or_empty year ++ "-" ++ or_empty month
  else if otruthy year then or_empty year
  else "Unknown".

(** [parse_pubmed_book_article] (lines 272-339). *)
Definition parse_pubmed_book_article (book_element : Element) : dict :=
  let d := set "PMID" (of_opt (findtext_desc "PMID" book_element)) [] in
  let d := set "BookTitle" (of_opt (findtext_desc "BookTitle" book_element)) d in
  let d := set "Authors" (VList (authors_of book_element)) d in
  let d := set "PublicationDate"
               (VStr (match find_desc "PubDate" book_element with
                      | Some pub_date =>
                          book_pub_date (findtext_child "Year" pub_date)
                                        (findtext_child "Month" pub_date)
                                        (findtext_child "Day" pub_date)
                      | None => "Unknown"
                      end)) d in
  let d := set "Keywords" (VList (keywords_of book_element)) d in
  let d := set "Publisher" (VStr (text_or_unknown (find_desc "Publisher" book_element))) d in
  set "Copyright"
      (VStr (text_or_unknown (find_desc "CopyrightInformation" book_element))) d.

End Normalizer.

(* ================================================================== *)
(** ** CustomPubMed, part 2: the request gate ([_exceededRateLimit],
       [_get]) on an explicit clock                                     *)
(* ================================================================== *)

Module RateLimiter.
Import Py.
Local Open Scope Z_scope.

(** Time is counted in microseconds, the resolution of [datetime]. The
    client keeps the timestamps of line 41; [dispatched] is a ghost log of
    the instants at which [requests.get] sent a request. *)
Record client : Type := mkClient {
  clock : Z;
  ticks : nat;
  _requestsMade : list Z;
  dispatched : list Z
}.

Definition _rateLimit : Z := 3.
Definition second : Z := 1000000.

Definition fresh (t0 : Z) : client :=
  {| clock := t0; ticks := 0; _requestsMade := []; dispatched := [] |}.

Section Timing.

(** [elapse k] is the time the [k]-th step of the run takes on top of what
    the code asks for: scheduling, network latency, work between calls. *)
Variable elapse : nat -> N.
(** [http_ok i]: the [i]-th request is answered with a success status. *)
Variable http_ok : nat -> bool.

Definition pass (c : client) : client :=
  {| clock := clock c + Z.of_N (elapse (ticks c));
     ticks := S (ticks c);
     _requestsMade := _requestsMade c;
     dispatched := dispatched c |}.

(** [datetime.datetime.now()] *)
Definition now (c : client) : Z * client :=
  let c' := pass c in (clock c', c').

(** [time.sleep(us)] returns no earlier than [us] microseconds later. *)
Definition sleep (us : Z) (c : client) : client :=
  pass {| clock := clock c + us; ticks := ticks c;
          _requestsMade := _requestsMade c; dispatched := dispatched c |}.

(** [_exceededRateLimit] (lines 43-52). *)
Definition _exceededRateLimit (c : client) : bool * client :=
  let '(current_time, c1) := now c in
  let kept :=
    filter (fun req_time => req_time >? current_time - second)
           (_requestsMade c1) in
  (Z.of_nat (List.length kept) >=? _rateLimit,
   {| clock := clock c1; ticks := ticks c1;
      _requestsMade := kept; dispatched := dispatched c1 |}).

(** The loop of lines 58-59; [fuel] bounds the number of checks. *)
Fixpoint gate (fuel : nat) (c : client) : option client :=
  match fuel with
  | O => None
  | S fuel' =>
      let '(exceeded, c1) := _exceededRateLimit c in
      if exceeded then gate fuel' (sleep 100000 c1) else Some c1
  end.

(** [_get] (lines 54-72), as far as time is concerned: the gate, the
    request leaving, the response arriving, and the timestamp appended
    only after a success status. *)
Definition _get (fuel : nat) (i : nat) (c : client) : outcome unit * client :=
  match gate fuel c with
  | None => (Timeout, c)
  | Some c1 =>
      let c2 := pass c1 in
      let c3 := {| clock := clock c2; ticks := ticks c2;
                   _requestsMade := _requestsMade c2;
                   dispatched := dispatched c2 ++ [clock c2] |} in
      let c4 := pass c3 in
      if http_ok i then
        let '(t, c5) := now c4 in
        (Ret tt, {| clock := clock c5; ticks := ticks c5;
                    _requestsMade := _requestsMade c5 ++ [t];
                    dispatched := dispatched c5 |})
      else (Raise HTTPError, c4)
  end.

(** [n] requests of one client one after the other, numbered from [i];
    an exception ends the run, as nothing in the program catches it. *)
Fixpoint session (fuel : nat) (n i : nat) (c : client) : outcome unit * client :=
  match n with
  | O => (Ret tt, c)
  | S n' =>
      match _get fuel i c with
      | (Ret _, c') => session fuel n' (S i) c'
      | r => r
      end
  end.

End Timing.

(** Number of requests sent in the interval [(t - 1s, t]]. *)
Definition sent_within_last_second (t : Z) (log : list Z) : nat :=
  List.length (filter (fun d => (t - second <? d) && (d <=? t)) log).

End RateLimiter.

(* ================================================================== *)
(** ** Calendar: the [datetime] arithmetic of [load_articles_by_date]  *)
(* ================================================================== *)

Module Calendar.
Local Open Scope Z_scope.

(** Every [datetime] of the program lies at midnight, so one is kept as
    its proleptic Gregorian ordinal (day 1 is 0001-01-01). *)
Definition datetime : Type := Z.

Definition _is_leap (year : Z) : bool :=
  (year mod 4 =? 0) && (negb (year mod 100 =? 0) || (year mod 400 =? 0)).

Definition _DAYS_IN_MONTH : list Z :=
  [31; 28; 31; 30; 31; 30; 31; 31; 30; 31; 30; 31].

Definition _days_in_month (month : Z) : Z :=
  nth (Z.to_nat (month - 1)) _DAYS_IN_MONTH 0.

Definition _days_before_month (year month : Z) : Z :=
  fold_right Z.add 0 (firstn (Z.to_nat (month - 1)) _DAYS_IN_MONTH)
  + (if (month >? 2) && _is_leap year then 1 else 0).

Definition _days_before_year (year : Z) : Z :=
  let y := year - 1 in y * 365 + y / 4 - y / 100 + y / 400.

(** [datetime(year, month, day)] *)
Definition _ymd2ord (year month day : Z) : datetime :=
  _days_before_year year + _days_before_month year month + day.

(** The inverse, as [datetime.py] computes it. *)
Definition _ord2ymd (n0 : datetime) : Z * Z * Z :=
  let n := n0 - 1 in
  let n400 := n / 146097 in
  let n := n mod 146097 in
  let n100 := n / 36524 in
  let n := n mod 36524 in
  let n4 := n / 1461 in
  let n := n mod 1461 in
  let n1 := n / 365 in
  let n := n mod 365 in
  let year := n400 * 400 + 1 + n100 * 100 + n4 * 4 + n1 in
  if (n1 =? 4) || (n100 =? 4) then (year - 1, 12, 31)
  else
    let leapyear := (n1 =? 3) && (negb (n4 =? 24) || (n100 =? 3)) in
    let month := Z.shiftr (n + 50) 5 in
    let preceding :=
      fold_right Z.add 0 (firstn (Z.to_nat (month - 1)) _DAYS_IN_MONTH)
      + (if (month >? 2) && leapyear then 1 else 0) in
    if preceding >? n then
      let month' := month - 1 in
      let preceding' :=
        preceding - (_days_in_month month'
                     + (if (month' =? 2) && leapyear then 1 else 0)) in
      (year, month', n - preceding' + 1)
    else (year, month, n - preceding + 1).

(** [dt.strftime("%Y/%m/%d")] *)
Definition strftime_ymd (dt : datetime) : string :=
  let '(y, m, d) := _ord2ymd dt in
  (Text.of_nat (Z.to_nat y) ++ "/" ++ Text.fmt02 (Z.to_nat m)
   ++ "/" ++ Text.fmt02 (Z.to_nat d))%string.

End Calendar.

(* ================================================================== *)
(** ** CustomPubMed, part 3: search, paged fetch, loading by date      *)
(* ================================================================== *)

Module CustomPubMed.
Import Py ET Normalizer Calendar.
Local Open Scope Z_scope.

(** The dict [search_with_history] returns. *)
Record SearchResults : Type := mkSearch {
  count : Z;
  WebEnv : option string;
  QueryKey : option string
}.

(** A request as it leaves [_get]. *)
Inductive request : Type :=
| ESearch (term : string)
| EFetch (webenv query_key : option string) (retstart retmax : Z).

Definition is_efetch (r : request) : bool :=
  match r with EFetch _ _ _ _ => true | ESearch _ => false end.

(** The remote service. The first argument is the number of requests the
    client has sent before, so that an answer may depend on the history.
    [esearch] gives the decoded answer of ESearch (a failing status or a
    payload that does not decode is an exception); [efetch] gives the root
    element [ET.fromstring] builds from the answer of EFetch. *)
Record Remote : Type := mkRemote {
  esearch : nat -> string -> outcome SearchResults;
  efetch : nat -> option string -> option string -> Z -> Z -> outcome Element
}.

(** Code of the client runs over the log of requests sent so far. *)
Definition M (A : Type) : Type := list request -> outcome A * list request.

Definition ret {A} (a : A) : M A := fun log => (Ret a, log).
Definition raise {A} (e : exn) : M A := fun log => (Raise e, log).
Definition bind {A B} (m : M A) (k : A -> M B) : M B :=
  fun log =>
    match m log with
    | (Ret a, log') => k a log'
    | (Raise e, log') => (Raise e, log')
    | (Timeout, log') => (Timeout, log')
    end.

Notation "x <- m ;; k" := (bind m (fun x => k))
  (at level 61, m at next level, right associativity).

(** Truth value of an [int]. *)
Definition ztruthy (n : Z) : bool := negb (n =? 0).
(** Truth value of an [Optional[int]]. *)
Definition oztruthy (o : option Z) : bool :=
  match o with Some n => ztruthy n | None => false end.

(** The budget [remaining]: an [int], or [float("inf")]. *)
Inductive budget : Type :=
| Fin (n : Z)
| Inf.

(** [min(remaining, total_available, 9999)] *)
Definition min3 (remaining : budget) (total_available : Z) : Z :=
  match remaining with
  | Fin r => Z.min (Z.min r total_available) 9999
  | Inf => Z.min total_available 9999
  end.

(** [remaining - n <= 0] *)
Definition spent (remaining : budget) (n : Z) : bool :=
  match remaining with
  | Fin r => r - n <=? 0
  | Inf => false
  end.

Definition dq : string := String (ascii_of_nat 34) EmptyString.

(** Lines 365-366. *)
Definition date_query (start end_ : datetime) : string :=
  ("(" ++ dq ++ strftime_ymd start ++ dq ++ "[PDAT] : "
   ++ dq ++ strftime_ymd end_ ++ dq ++ "[PDAT])")%string.

Definition full_query (query : string) (start end_ : datetime) : string :=
  (query ++ " AND " ++ date_query start end_)%string.

Section Client.

Variable R : Remote.

(** [search_with_history] (lines 74-94). *)
Definition search_with_history (query : string) : M SearchResults :=
  fun log => (esearch R (List.length log) query, log ++ [ESearch query]).

(** The EFetch request of lines 125-136. *)
Definition fetch_page (webenv query_key : option string) (retstart retmax : Z)
  : M Element :=
  fun log =>
    (efetch R (List.length log) webenv query_key retstart retmax,
     log ++ [EFetch webenv query_key retstart retmax]).

(** Lines 138-145: the articles of the page, then its book articles. *)
Definition parse_page (root : Element) : list dict :=
  map parse_pubmed_article (findall_desc "PubmedArticle" root)
  ++ map parse_pubmed_book_article (findall_desc "PubmedBookArticle" root).

(** The loop of [fetch_articles] (lines 117-152) over [articles] and
    [fetched]; [fuel] bounds the number of turns. *)
Fixpoint fetch_loop (fuel : nat) (webenv query_key : option string)
    (batch_size : Z) (max_results : option Z)
    (articles : list dict) (fetched : Z) : M (list dict) :=
  match fuel with
  | O => fun log => (Timeout, log)
  | S fuel' =>
      match max_results with
      | Some m =>
          if ztruthy m && (fetched >=? m) then ret articles
          else
            let current_batch_size :=
              if ztruthy m && (m - fetched <? batch_size)
              then m - fetched else batch_size in
            root <- fetch_page webenv query_key fetched current_batch_size ;;
            match parse_page root with
            | [] => ret articles
            | batch_articles =>
                fetch_loop fuel' webenv query_key batch_size max_results
                           (articles ++ batch_articles)
                           (fetched + current_batch_size)
            end
      | None =>
          root <- fetch_page webenv query_key fetched batch_size ;;
          match parse_page root with
          | [] => ret articles
          | batch_articles =>
              fetch_loop fuel' webenv query_key batch_size max_results
                         (articles ++ batch_articles) (fetched + batch_size)
          end
      end
  end.

(** [fetch_articles] *)
Definition fetch_articles (fuel : nat) (webenv query_key : option string)
    (batch_size : Z) (max_results : option Z) : M (list dict) :=
  fetch_loop fuel webenv query_key batch_size max_results [] 0.

(** [recursive_load] (lines 364-407). [fuel] bounds the depth of the
    recursion and the turns of each fetch loop. In the second branch the
    argument [mid_point + timedelta(days=1)] of line 405 names
    [timedelta], which the module never binds (it imports [datetime]
    only), so reaching that line raises [NameError]. *)
Fixpoint recursive_load (fuel : nat) (query : string) (start end_ : datetime)
    (remaining : budget) : M (list dict) :=
  match fuel with
  | O => fun log => (Timeout, log)
  | S fuel' =>
      search_results <- search_with_history (full_query query start end_) ;;
      let total_available := count search_results in
      if total_available =? 0 then ret []
      else
        let fetch_count := min3 remaining total_available in
        if fetch_count <=? 9999 then
          fetch_articles fuel (WebEnv search_results) (QueryKey search_results)
                         1000 (Some fetch_count)
        else
          let mid_point := start + (end_ - start) / 2 in
          first_half <- recursive_load fuel' query start mid_point remaining ;;
          if spent remaining (Z.of_nat (List.length first_half))
          then ret first_half
          else raise NameError
  end.

(** [load_articles_by_date] (lines 341-421); the two dates arrive as
    [strptime] reads them. *)
Definition load_articles_by_date (fuel : nat) (base_query : string)
    (start_dt end_dt : datetime) (max_results : option Z) : M (list dict) :=
  let max_results' :=
    match max_results with
    | None => Inf
    | Some m => Fin m
    end in
  recursive_load fuel base_query start_dt end_dt max_results'.

End Client.

End CustomPubMed.

(* ================================================================== *)
(** ** ArticleLoader: the background job and what a poller reads       *)
(* ================================================================== *)

Module ArticleLoader.
Import Py Calendar CustomPubMed.
Local Open Scope Z_scope.

(** The fields of the loader object that the worker writes and
    [get_progress] reads (lines 433-438). *)
Record loader : Type := mkLoader {
  status : string;
  progress : Z;
  total : Z;
  output_files : list string
}.

(** [ArticleLoader.__init__] *)
Definition init : loader :=
  {| status := "Idle"; progress := 0; total := 0; output_files := [] |}.

Definition set_status (s : string) (l : loader) : loader :=
  {| status := s; progress := progress l; total := total l;
     output_files := output_files l |}.
Definition set_progress (p : Z) (l : loader) : loader :=
  {| status := status l; progress := p; total := total l;
     output_files := output_files l |}.
Definition set_total_status (t : Z) (s : string) (l : loader) : loader :=
  {| status := s; progress := progress l; total := t;
     output_files := output_files l |}.
Definition set_output_files (l : loader) : loader :=
  {| status := status l; progress := progress l; total := total l;
     output_files := ["json"; "zip"] |}.

(** The file operations of the worker, each of which may fail. *)
Inductive file_op : Type :=
| MakeBaseDir
| DumpPickle
| DumpJson
| MakeTxtDir
| WriteTxt (i : nat)
| WriteZip.

(** The state of a running job: the loader object, every value the
    object has had since launch (oldest first, the current one last), and
    the requests of the job's own client. *)
Record job : Type := mkJob {
  current : loader;
  history : list loader;
  requests : list request
}.

Definition launch (l : loader) : job :=
  {| current := l; history := [l]; requests := [] |}.

Definition J (A : Type) : Type := job -> outcome A * job.

Definition jret {A} (a : A) : J A := fun j => (Ret a, j).
Definition jbind {A B} (m : J A) (k : A -> J B) : J B :=
  fun j =>
    match m j with
    | (Ret a, j') => k a j'
    | (Raise e, j') => (Raise e, j')
    | (Timeout, j') => (Timeout, j')
    end.

Notation "x <~ m ;; k" := (jbind m (fun x => k))
  (at level 61, m at next level, right associativity).

(** One write to the loader object (several fields at once when the
    source writes them under one [with self.lock]). *)
Definition write (f : loader -> loader) : J unit :=
  fun j =>
    let l := f (current j) in
    (Ret tt, {| current := l; history := history j ++ [l];
                requests := requests j |}).

(** Code of the client, run on the job's request log. *)
Definition call {A} (m : M A) : J A :=
  fun j =>
    let '(r, log) := m (requests j) in
    (r, {| current := current j; history := history j; requests := log |}).

(** The fixed ladder of lines 465-481; [this_year] is
    [datetime.datetime.now().year]. *)
Definition date_ranges (this_year : Z) : list (datetime * datetime) :=
  [(_ymd2ord 1950 1 1, _ymd2ord 1955 12 31);
   (_ymd2ord 1956 1 1, _ymd2ord 1960 12 31);
   (_ymd2ord 1961 1 1, _ymd2ord 1965 12 31);
   (_ymd2ord 1966 1 1, _ymd2ord 1970 12 31);
   (_ymd2ord 1971 1 1, _ymd2ord 1975 12 31);
   (_ymd2ord 1976 1 1, _ymd2ord 1980 12 31);
   (_ymd2ord 1981 1 1, _ymd2ord 1985 12 31);
   (_ymd2ord 1986 1 1, _ymd2ord 1990 12 31);
   (_ymd2ord 1991 1 1, _ymd2ord 1995 12 31);
   (_ymd2ord 1996 1 1, _ymd2ord 2000 12 31);
   (_ymd2ord 2001 1 1, _ymd2ord 2005 12 31);
   (_ymd2ord 2006 1 1, _ymd2ord 2010 12 31);
   (_ymd2ord 2011 1 1, _ymd2ord 2015 12 31);
   (_ymd2ord 2016 1 1, _ymd2ord 2020 12 31);
   (_ymd2ord 2021 1 1, _ymd2ord this_year 12 31)].

Section Worker.

Variable R : Remote.
(** [fs_ok op]: the file operation [op] succeeds. *)
Variable fs_ok : file_op -> bool.
Variable fuel : nat.
Variable search_term : string.
Variable max_results : option Z.

Definition file (op : file_op) : J unit :=
  fun j => if fs_ok op then (Ret tt, j) else (Raise OSError, j).

(** The loop of lines 496-513 over [all_articles] and [total_fetched]. *)
Fixpoint windows (ranges : list (datetime * datetime))
    (all_articles : list dict) (total_fetched : Z) : J (list dict) :=
  match ranges with
  | [] => jret all_articles
  | (start_date, end_date) :: rest =>
      if oztruthy max_results
         && (total_fetched >=? match max_results with Some m => m | None => 0 end)
      then jret all_articles
      else
        let remaining :=
          match max_results with
          | Some m => if ztruthy m then Some (m - total_fetched) else None
          | None => None
          end in
        articles <~ call (load_articles_by_date R fuel search_term
                                                start_date end_date remaining) ;;
        let all_articles' := all_articles ++ articles in
        let total_fetched' := total_fetched + Z.of_nat (List.length articles) in
        _ <~ write (set_progress total_fetched') ;;
        if oztruthy max_results
           && (total_fetched' >=? match max_results with Some m => m | None => 0 end)
        then jret all_articles'
        else windows rest all_articles' total_fetched'
  end.

(** The loop of lines 541-542. *)
Fixpoint write_txt (i : nat) (all_articles : list dict) : J unit :=
  match all_articles with
  | [] => jret tt
  | _ :: rest => _ <~ file (WriteTxt i) ;; write_txt (S i) rest
  end.

(** [task] (lines 451-560), the body of the worker thread. No statement
    of it is inside a [try]; an exception ends the thread where it is
    raised. *)
Definition task (this_year : Z) : J unit :=
  _ <~ file MakeBaseDir ;;
  _ <~ write set_output_files ;;
  _ <~ write (set_status "Starting...") ;;
  _ <~ write (set_progress 0) ;;
  search_results <~ call (search_with_history R search_term) ;;
  let total_available := count search_results in
  _ <~ write (set_total_status
                (match max_results with
                 | Some m => if ztruthy m then m else total_available
                 | None => total_available
                 end)
                "Downloading...") ;;
  all_articles <~ windows (date_ranges this_year) [] 0 ;;
  _ <~ write (set_status "Save article IDs using pickle") ;;
  _ <~ file DumpPickle ;;
  _ <~ write (set_status "Save articles to JSON") ;;
  _ <~ file DumpJson ;;
  _ <~ write (set_status "Save articles to txt") ;;
  _ <~ file MakeTxtDir ;;
  _ <~ write_txt 0 all_articles ;;
  _ <~ write (set_status "Creating ZIP archive") ;;
  _ <~ file WriteZip ;;
  write (set_status "Completed").

(** [load_articles] on a loader object: the job as the worker leaves it. *)
Definition load_articles (this_year : Z) (l : loader) : outcome unit * job :=
  task this_year (launch l).

End Worker.

(** [get_progress] (lines 564-573) at a moment when the object has been
    written [n] times since launch: the snapshot of the three fields. *)
Definition get_progress (j : job) (n : nat) : string * Z * Z :=
  let l := nth n (history j) (current j) in
  (status l, progress l, total l).

(** The statuses lines 437-560 assign. *)
Definition statuses : list string :=
  ["Idle"; "Starting..."; "Downloading..."; "Save article IDs using pickle";
   "Save articles to JSON"; "Save articles to txt"; "Creating ZIP archive";
   "Completed"].

End ArticleLoader.

(* ================================================================== *)
(** ** Vocabulary of the statements                                    *)
(* ================================================================== *)

Module Spec.
Import Text ET Py Normalizer.
Local Open Scope string_scope.

(** The abstract sections line 245 walks over. *)
Definition field_sections (article_element : Element) : list Element :=
  findall_desc_child "Abstract" "AbstractText" article_element.

(** A section that line 249 stores under the key [k]: labelled [k], with
    text left after stripping. *)
Definition labelled (k : string) (abstract_section : Element) : bool :=
  match ET.get "Label" abstract_section with
  | Some label =>
      String.eqb label k && truthy label && truthy (inner_text abstract_section)
  | None => false
  end.

(** Some abstract section of the record is stored under the key [k]. *)
Definition overridden (k : string) (article_element : Element) : bool :=
  existsb (labelled k) (field_sections article_element).

(** The abstract sections lines 171-174 walk over: the [AbstractText]
    children of the first [Abstract] element. *)
Definition abstract_sections (article_element : Element) : list Element :=
  match find_desc "Abstract" article_element with
  | Some abstract => findall_child "AbstractText" abstract
  | None => []
  end.

(** The specification's wording of the abstract: one line per section,
    ["<Label>: <text>\n"] or ["<text>\n"]. *)
Definition render (abstract_section : Element) : string :=
  match ET.get "Label" abstract_section with
  | Some label =>
      if truthy label
      then label ++ ": " ++ inner_text abstract_section ++ nl
      else inner_text abstract_section ++ nl
  | None => inner_text abstract_section ++ nl
  end.

(** The sections whose text differs from the text of every earlier
    section; [earlier] holds the texts met so far. *)
Fixpoint first_occurrences (earlier : list string) (secs : list Element)
  : list Element :=
  match secs with
  | [] => []
  | s :: rest =>
      if existsb (String.eqb (inner_text s)) earlier
      then first_occurrences (earlier ++ [inner_text s])%list rest
      else s :: first_occurrences (earlier ++ [inner_text s])%list rest
  end.

(** The concatenation the specification describes, before trimming. *)
Definition assembled (article_element : Element) : string :=
  concat_all (map render (first_occurrences [] (abstract_sections article_element))).

End Spec.

(* ================================================================== *)
(** ** Concrete records                                                *)
(* ================================================================== *)

Module Examples.
Import Text ET Py.
Local Open Scope string_scope.

Definition leaf (t : string) (x : string) : Element :=
  Elem t [] (Some x) [] None.

Definition node (t : string) (cs : list Element) : Element :=
  Elem t [] None cs None.

(** [<AbstractText Label="l">x</AbstractText>] and the unlabelled form. *)
Definition section (l : option string) (x : string) : Element :=
  Elem "AbstractText"
       (match l with Some v => [("Label", v)] | None => [] end)
       (Some x) [] None.

(** A [PubmedArticle] with the given abstract sections and [PubDate]
    children, and no [PMID] element. *)
Definition article (secs : list Element) (date : list Element) : Element :=
  node "PubmedArticle"
    [node "MedlineCitation"
       [node "Article"
          [node "Journal" [node "JournalIssue" [node "PubDate" date]];
           node "Abstract" secs]]].

Definition pub_date (y m d : string) : list Element :=
  [leaf "Year" y; leaf "Month" m; leaf "Day" d].

(** Published 2020, month ["Spring"], day ["5"]. *)
Definition spring_article : Element := article [] (pub_date "2020" "Spring" "5").

(** Published 2020, month ["Jan"], day ["5"]. *)
Definition january_article : Element := article [] (pub_date "2020" "Jan" "5").

(** No [PMID] element, and a section whose label is ["PMID"]. *)
Definition pmid_label_article : Element :=
  article [section (Some "PMID") "x"] [].

(** No [PMID] element, an ordinary abstract. *)
Definition plain_article : Element :=
  article [section (Some "Methods") "m"; section (Some "Results") "r"] [].

(** An empty first section before a section with text. *)
Definition empty_first_article : Element :=
  article [section None ""; section None "x"] [].

(** A section labelled ["Methods"] with no text. *)
Definition empty_methods_article : Element :=
  article [section (Some "Methods") ""; section (Some "Results") "r"] [].

(** A section whose label is ["Abstract"]. *)
Definition abstract_label_article : Element :=
  article [section (Some "Abstract") "x"; section None "y"] [].

(** A [PubmedBookArticle] with no [PMID] element. *)
Definition plain_book : Element :=
  node "PubmedBookArticle"
    [node "BookDocument" [node "Book" [leaf "BookTitle" "A book"]]].

End Examples.

(* ================================================================== *)
(** ** Vocabulary for the window loader and concrete remotes           *)
(* ================================================================== *)

Module Windows.
Import Py ET Calendar CustomPubMed.
Local Open Scope Z_scope.

(** The first branch of [recursive_load] alone: search, then fetch in
    pages, with no bisection. *)
Definition load_without_split (R : Remote) (fuel : nat) (query : string)
    (start end_ : datetime) (remaining : budget) : M (list dict) :=
  bind (search_with_history R (full_query query start end_))
       (fun search_results =>
          if count search_results =? 0 then ret []
          else fetch_articles R fuel (WebEnv search_results)
                              (QueryKey search_results) 1000
                              (Some (min3 remaining (count search_results)))).

(** [min(remaining, available)] *)
Definition wanted (remaining : budget) (available : Z) : Z :=
  match remaining with
  | Fin r => Z.min r available
  | Inf => available
  end.

(** A positive budget. *)
Definition positive (remaining : budget) : Prop :=
  match remaining with
  | Fin r => 0 < r
  | Inf => True
  end.

(** The answer of the remote to the page [retstart, retstart + retmax) of
    a cursor holds exactly [retmax] records, whenever the request is sent. *)
Definition full_page (R : Remote) (webenv query_key : option string)
    (retstart retmax : Z) : Prop :=
  forall n : nat,
  exists root : Element,
    efetch R n webenv query_key retstart retmax = Ret root
    /\ Z.of_nat (List.length (parse_page root)) = retmax.

Definition searches (log : list request) : list request :=
  filter (fun r => negb (is_efetch r)) log.

Definition fetches (log : list request) : list request :=
  filter is_efetch log.

(** A remote that holds [n] article records under every query and serves
    them in pages as asked. *)
Definition stock_page (n retstart retmax : Z) : Element :=
  Elem "PubmedArticleSet" [] None
       (repeat (Elem "PubmedArticle" [] None [] None)
               (Z.to_nat (Z.min retmax (n - retstart))))
       None.

Definition stock_remote (n : Z) : Remote :=
  {| esearch := fun _ _ =>
       Ret {| count := n; WebEnv := Some "MCID_1"%string;
              QueryKey := Some "1"%string |};
     efetch := fun _ _ _ retstart retmax => Ret (stock_page n retstart retmax) |}.

(** Number of records of a returned list. *)
Definition returned (o : outcome (list dict)) : option Z :=
  match o with
  | Ret l => Some (Z.of_nat (List.length l))
  | _ => None
  end.

(** The window 2016/01/01 - 2020/12/31. *)
Definition window_start : datetime := _ymd2ord 2016 1 1.
Definition window_end : datetime := _ymd2ord 2020 12 31.

End Windows.

(* ================================================================== *)
(** ** Vocabulary for the request gate                                 *)
(* ================================================================== *)

Module Gate.
Import RateLimiter.
Local Open Scope Z_scope.

(** Number of entries later than [x]. *)
Definition count_gt (x : Z) (l : list Z) : nat :=
  List.length (filter (fun r => r >? x) l).

(** What holds of a client between two calls of [_get]: no kept
    timestamp and no dispatch lies in the future, every dispatch of the
    last second is matched by a kept timestamp no earlier than it, and no
    interval of one second holds more than three dispatches. *)
Definition between_calls (c : client) : Prop :=
  Forall (fun r => r <= clock c) (_requestsMade c)
  /\ Forall (fun d => d <= clock c) (dispatched c)
  /\ (forall x, clock c - second <= x ->
                (count_gt x (dispatched c) <= count_gt x (_requestsMade c))%nat)
  /\ (forall t, (sent_within_last_second t (dispatched c) <= 3)%nat).

(** A run in which the service is slow to answer: every step takes 0.4 s. *)
Definition slow (k : nat) : N := 400000%N.

(** A run on an infinitely fast machine and network. *)
Definition instant (k : nat) : N := 0%N.

Definition always_ok (i : nat) : bool := true.

End Gate.

(* ================================================================== *)
(** ** Vocabulary for the job                                          *)
(* ================================================================== *)

Module Job.
Import Py Calendar CustomPubMed ArticleLoader Windows.
Local Open Scope Z_scope.

(** A triple for code of the worker: from a job that satisfies [P], a
    run that returns [a] ends in a job that satisfies [Q a], and a run
    that raises (or gets no answer) ends in one that satisfies [E]. *)
Definition triple {A : Type} (P : job -> Prop) (m : J A)
    (Q : A -> job -> Prop) (E : job -> Prop) : Prop :=
  forall j : job,
    P j ->
    match m j with
    | (Ret a, j') => Q a j'
    | (_, j') => E j'
    end.

(** The progress a poller reads never goes down from one value of the
    loader object to a later one. *)
Definition monotone (j : job) : Prop :=
  forall n m : nat,
    (n <= m)%nat ->
    progress (nth n (history j) (current j))
    <= progress (nth m (history j) (current j)).

(** The last value recorded is the current one. *)
Definition synced (j : job) : Prop :=
  exists h, history j = h ++ [current j].

(** The statuses of a job that has not completed. *)
Definition pending : list string :=
  ["Idle"; "Starting..."; "Downloading..."; "Save article IDs using pickle";
   "Save articles to JSON"; "Save articles to txt"; "Creating ZIP archive"].

Definition snapshot (l : loader) : string * Z * Z :=
  (status l, progress l, total l).

(** Code of the client and file operations leave the loader object as it
    is. *)
Definition same_object (j j' : job) : Prop :=
  current j' = current j /\ history j' = history j.

(** What the worker keeps true of a job that has not completed. *)
Definition unfinished (j : job) : Prop :=
  In (status (current j)) pending /\ synced j.

(** Monotone so far, with the progress written last at most
    [total_fetched]. *)
Definition fetched_upto (total_fetched : Z) (j : job) : Prop :=
  monotone j /\ progress (current j) <= total_fetched.

Definition total_is (m : Z) (j : job) : Prop := total (current j) = m.

Definition anything (j : job) : Prop := True.

(** The progress field of what [get_progress] returns. *)
Definition progress_of (snap : string * Z * Z) : Z := snd (fst snap).

(** A remote whose every answer is a failing status. *)
Definition failing_remote : Remote :=
  {| esearch := fun _ _ => Raise HTTPError;
     efetch := fun _ _ _ _ _ => Raise HTTPError |}.

(** A remote that holds five records, all published in the last window
    of the ladder for the year 2026. *)
Definition five_recent (base : string) : Remote :=
  {| esearch := fun _ term =>
       if String.eqb term base
          || String.eqb term (full_query base (_ymd2ord 2021 1 1)
                                         (_ymd2ord 2026 12 31))
       then Ret {| count := 5; WebEnv := Some "MCID_1"%string;
                   QueryKey := Some "1"%string |}
       else Ret {| count := 0; WebEnv := Some "MCID_0"%string;
                   QueryKey := Some "1"%string |};
     efetch := fun _ _ _ retstart retmax => Ret (stock_page 5 retstart retmax) |}.

Definition disk_ok (op : file_op) : bool := true.

End Job.

(* ================================================================== *)
(** ** Vocabulary for the pages of a fetch                             *)
(* ================================================================== *)

Module Paging.
Import Py ET CustomPubMed Windows.
Local Open Scope Z_scope.

(** The [i]-th request of [fetch_articles] with [batch_size=1000] and a
    limit of [m] records. *)
Definition page_request (webenv query_key : option string) (m : Z) (i : nat)
  : request :=
  EFetch webenv query_key (1000 * Z.of_nat i)
         (Z.min 1000 (m - 1000 * Z.of_nat i)).

(** The pages a fetch of at most [m] records asks for, in order. *)
Definition page_requests (webenv query_key : option string) (m : Z) (n : nat)
  : list request :=
  map (page_request webenv query_key m) (seq 0 n).

(** A remote that never answers EFetch with more records than the
    [retmax] asked for. *)
Definition honest (R : Remote) : Prop :=
  forall (n : nat) (webenv query_key : option string) (retstart retmax : Z)
         (root : Element),
    0 < retmax ->
    efetch R n webenv query_key retstart retmax = Ret root ->
    Z.of_nat (List.length (parse_page root)) <= retmax.

(** A remote that answers every request, with a payload or a failure. *)
Definition responsive (R : Remote) : Prop :=
  (forall n term, esearch R n term <> Timeout)
  /\ (forall n webenv query_key retstart retmax,
        efetch R n webenv query_key retstart retmax <> Timeout).

(** A budget other than the [int] zero. *)
Definition nonzero (remaining : budget) : Prop :=
  match remaining with
  | Fin r => r <> 0
  | Inf => True
  end.

(** A remote whose first page is empty although its search counts [n]
    records. *)
Definition hollow_remote (n : Z) : Remote :=
  {| esearch := fun _ _ =>
       Ret {| count := n; WebEnv := Some "MCID_1"%string;
              QueryKey := Some "1"%string |};
     efetch := fun _ _ _ _ _ => Ret (Elem "PubmedArticleSet" [] None [] None) |}.

End Paging.

(* ================================================================== *)
(** ** Vocabulary for the fields of a record                           *)
(* ================================================================== *)

Module Records.
Import Text ET Py Normalizer Spec.
Local Open Scope string_scope.

(** The keys [parse_pubmed_article] always sets. *)
Definition article_keys : list string :=
  ["PMID"; "Title"; "Abstract"; "Authors"; "PublicationDate"; "Keywords";
   "Journal"; "Copyright"].

(** The keys [parse_pubmed_book_article] sets. *)
Definition book_keys : list string :=
  ["PMID"; "BookTitle"; "Authors"; "PublicationDate"; "Keywords";
   "Publisher"; "Copyright"].

(** The record of an article before line 251 merges the labelled
    sections into it. *)
Definition standard_fields (article_element : Element) : dict :=
  set "Journal"
      (VStr (text_or_unknown (find_desc_child "Journal" "Title" article_element)))
  (set "Keywords" (VList (keywords_of article_element))
  (set "PublicationDate" (VStr (publication_date_article article_element))
  (set "Authors" (VList (authors_of article_element))
  (set "Abstract" (VStr (abstract_of article_element))
  (set "Title"
       (match find_desc "ArticleTitle" article_element with
        | Some title_element => VStr (inner_text title_element)
        | None => VStr "No Title Available"
        end)
  (set "PMID" (of_opt (findtext_desc "PMID" article_element)) [])))))).

(** [d[k]] does not raise [KeyError]. *)
Definition present (k : string) (d : dict) : Prop :=
  exists v, get k d = Some v.

(** The last of the sections stored under the key [k]. *)
Fixpoint last_labelled (k : string) (secs : list Element) : option Element :=
  match secs with
  | [] => None
  | s :: rest =>
      match last_labelled k rest with
      | Some s' => Some s'
      | None => if labelled k s then Some s else None
      end
  end.

(** Text with no white space at either end. *)
Definition stripped (s : string) : Prop := strip s = s.

(** An ASCII letter. *)
Definition is_letter (c : ascii) : bool :=
  let n := N_of_ascii c in
  (((65 <=? n) && (n <=? 90)) || ((97 <=? n) && (n <=? 122)))%N.

(** The first character, if any, is no ASCII letter. *)
Definition no_leading_letter (s : string) : bool :=
  match s with
  | EmptyString => true
  | String c _ => negb (is_letter c)
  end.

(** An article published in the year 2020, month ["7"], day ["5"]. *)
Definition numeric_month_article : Element :=
  Examples.article [] (Examples.pub_date "2020" "7" "5").

(** Two sections of one label, and a section that repeats a text. *)
Definition relabelled_article : Element :=
  Examples.article
    [Examples.section (Some "RESULTS") "first";
     Examples.section (Some "CONCLUSIONS") "first";
     Examples.section (Some "RESULTS") "second"] [].

(** The fields whose text the normalizer strips. *)
Definition stripped_keys : list string :=
  ["Title"; "Abstract"; "Journal"; "Copyright"].

(** The keys both variants of a record carry. *)
Definition common_keys : list string :=
  ["PMID"; "Authors"; "PublicationDate"; "Keywords"; "Copyright"].

(** An author entry with the given children. *)
Definition author (parts : list Element) : Element :=
  Examples.node "Author" parts.

End Records.

(* ================================================================== *)
(** ** Vocabulary for the course of a job                              *)
(* ================================================================== *)

Module Course.
Import Py Calendar CustomPubMed ArticleLoader Windows Job.
Local Open Scope Z_scope.

(** The place of a status in the order lines 437-560 assign them. *)
Definition rank (s : string) : Z :=
  match Normalizer.index_of s statuses 0 with
  | Some i => Z.of_nat i
  | None => -1
  end.

(** A measure of the loader object that never goes down from one value
    of the object to a later one. *)
Definition nondecreasing (mu : loader -> Z) (j : job) : Prop :=
  forall n m : nat,
    (n <= m)%nat ->
    mu (nth n (history j) (current j)) <= mu (nth m (history j) (current j)).

(** Every status the job has had is one of [statuses], and the status
    has only moved forward in their order. *)
Definition forward (j : job) : Prop :=
  nondecreasing (fun l => rank (status l)) j
  /\ forall n : nat, 0 <= rank (status (nth n (history j) (current j))).

(** Forward so far, and at rank [r] at most. *)
Definition forward_upto (r : Z) (j : job) : Prop :=
  forward j /\ rank (status (current j)) <= r.

(** [0 <= progress <= total] *)
Definition in_range (l : loader) : Prop :=
  0 <= progress l <= total l.

(** Every value the loader object has had is [in_range]. *)
Definition always_in_range (j : job) : Prop :=
  Forall in_range (history j) /\ in_range (current j).

(** Before the total is written: in range, with nothing fetched yet. *)
Definition not_started (j : job) : Prop :=
  always_in_range j /\ progress (current j) = 0.

(** After the total [m] is written. *)
Definition started (m : Z) (j : job) : Prop :=
  always_in_range j /\ total (current j) = m.

(** The job's client has sent no request yet. *)
Definition no_request (j : job) : Prop := requests j = [].

(** Code of the worker that gives an answer from every job. *)
Definition ends {A : Type} (m : J A) : Prop :=
  forall j : job, fst (m j) <> Timeout.

(** Each window starts on the day after the one before it ends. *)
Fixpoint contiguous (ranges : list (datetime * datetime)) : Prop :=
  match ranges with
  | (_, end1) :: (((start2, _) :: _) as rest) =>
      start2 = end1 + 1 /\ contiguous rest
  | _ => True
  end.

(** [max_results] when it counts as given, that is, when it is truthy. *)
Definition limit (max_results : option Z) : option Z :=
  match max_results with
  | Some m => if ztruthy m then Some m else None
  | None => None
  end.

End Course.

(* ================================================================== *)
(** ** Properties                                                      *)
(* ================================================================== *)

Module DictFacts.
Import Py.

Lemma get_set (k k' : string) (v : value) (d : dict) :
  get k (set k' v d) = if String.eqb k' k then Some v else get k d.
Proof.
  induction d as [|[k0 v0] d IH]; simpl.
  - reflexivity.
  - destruct (String.eqb k0 k') eqn:E0; simpl.
    + apply String.eqb_eq in E0; subst k0.
      destruct (String.eqb k' k); reflexivity.
    + rewrite IH. destruct (String.eqb k0 k) eqn:E1; [|reflexivity].
      apply String.eqb_eq in E1; subst k0.
      rewrite String.eqb_sym, E0. reflexivity.
Qed.

Lemma get_set_same (k : string) (v : value) (d : dict) :
  get k (set k v d) = Some v.
Proof. rewrite get_set, String.eqb_refl. reflexivity. Qed.

Lemma get_set_other (k k' : string) (v : value) (d : dict) :
  String.eqb k' k = false -> get k (set k' v d) = get k d.
Proof. intros H. rewrite get_set, H. reflexivity. Qed.

Lemma get_update_absent (k : string) (other d : dict) :
  (forall kv, In kv other -> String.eqb (fst kv) k = false) ->
  get k (update d other) = get k d.
Proof.
  unfold update. revert d.
  induction other as [|[k0 v0] other IH]; intros d H; simpl.
  - reflexivity.
  - rewrite IH.
    + apply get_set_other. apply (H (k0, v0)). left; reflexivity.
    + intros kv Hin. apply H. right; exact Hin.
Qed.

End DictFacts.

Module NormalizerFacts.
Import Text ET Py Normalizer Spec Records DictFacts.
Local Open Scope string_scope.

Lemma in_set (k : string) (v : value) (d : dict) (kv : string * value) :
  In kv (set k v d) -> kv = (k, v) \/ In kv d.
Proof.
  induction d as [|[k0 v0] d IH]; simpl.
  - intros [H|[]]; left; symmetry; exact H.
  - destruct (String.eqb k0 k) eqn:E; simpl.
    + apply String.eqb_eq in E; subst k0.
      intros [H|H]; [left; symmetry; exact H | right; right; exact H].
    + intros [H|H]; [right; left; exact H|].
      destruct (IH H) as [H'|H']; [left; exact H' | right; right; exact H'].
Qed.

(** Keys of [sections] come from sections that are [labelled]. *)
Lemma sections_keys (k : string) (secs : list Element) :
  forall acc : dict,
    (forall s, In s secs -> labelled k s = false) ->
    (forall kv, In kv acc -> String.eqb (fst kv) k = false) ->
    forall kv, In kv (fold_left sections_step secs acc) ->
               String.eqb (fst kv) k = false.
Proof.
  induction secs as [|s secs IH]; intros acc Hs Hacc kv; simpl.
  - apply Hacc.
  - apply IH.
    + intros s' Hin. apply Hs. right; exact Hin.
    + intros kv' Hin'. unfold sections_step in Hin'.
      pose proof (Hs s (or_introl eq_refl)) as Hl. unfold labelled in Hl.
      destruct (ET.get "Label" s) as [label|]; [|apply Hacc; exact Hin'].
      destruct (truthy label && truthy (inner_text s)) eqn:E;
        [|apply Hacc; exact Hin'].
      apply in_set in Hin'. destruct Hin' as [->|Hin']; [|apply Hacc; exact Hin'].
      simpl. apply andb_prop in E. destruct E as [E1 E2].
      rewrite E1, E2, !andb_true_r in Hl. exact Hl.
Qed.

Lemma update_nil (d : dict) : update d [] = d.
Proof. reflexivity. Qed.

(** Line 250: updating with an empty [sections] changes nothing, so the
    test can be dropped. *)
Lemma parse_pubmed_article_unfold (e : Element) :
  exists d : dict,
    parse_pubmed_article e
    = set "Copyright"
          (VStr (text_or_unknown (find_desc "CopyrightInformation" e)))
          (update d (sections_of e))
    /\ get "PMID" d = Some (of_opt (findtext_desc "PMID" e))
    /\ get "Abstract" d = Some (VStr (abstract_of e))
    /\ get "PublicationDate" d = Some (VStr (publication_date_article e)).
Proof.
  eexists. split.
  - unfold parse_pubmed_article.
    destruct (sections_of e) eqn:E; [rewrite update_nil|]; reflexivity.
  - repeat split; rewrite !get_set; reflexivity.
Qed.

(** A standard field keeps the value of its own lines unless a labelled
    section of the same name overwrites it at line 251. *)
Lemma field_not_overridden (k : string) (e : Element) (d : dict) :
  String.eqb "Copyright" k = false ->
  overridden k e = false ->
  get k (set "Copyright"
             (VStr (text_or_unknown (find_desc "CopyrightInformation" e)))
             (update d (sections_of e)))
  = get k d.
Proof.
  intros Hc Ho. rewrite get_set_other by exact Hc.
  apply get_update_absent. intros kv Hin.
  unfold sections_of in Hin.
  eapply sections_keys; [| |exact Hin].
  - intros s Hs. unfold overridden in Ho.
    destruct (labelled k s) eqn:E; [|reflexivity].
    assert (existsb (labelled k) (field_sections e) = true) as Hx
      by (apply existsb_exists; exists s; split; assumption).
    rewrite Hx in Ho. discriminate.
  - intros kv' [].
Qed.

Lemma has_key_false (k : string) (d : dict) :
  has_key k d = false ->
  forall kv, In kv d -> String.eqb (fst kv) k = false.
Proof.
  intros H kv Hin. destruct (String.eqb (fst kv) k) eqn:E; [|reflexivity].
  assert (has_key k d = true) as Hx
    by (apply existsb_exists; exists kv; split; assumption).
  rewrite Hx in H. discriminate.
Qed.

(** *** Labelled sections read back *)

Lemma sections_step_get (k : string) (acc : dict) (s : Element) :
  get k (sections_step acc s)
  = if labelled k s then Some (VStr (inner_text s)) else get k acc.
Proof.
  unfold sections_step, labelled.
  destruct (ET.get "Label" s) as [label|]; [|reflexivity].
  destruct (truthy label && truthy (inner_text s)) eqn:E.
  - rewrite get_set. apply andb_prop in E. destruct E as [E1 E2].
    rewrite E1, E2, !andb_true_r. reflexivity.
  - rewrite <- andb_assoc, E, andb_false_r. reflexivity.
Qed.

Lemma sections_get (k : string) (secs : list Element) :
  forall acc : dict,
    get k (fold_left sections_step secs acc)
    = match last_labelled k secs with
      | Some s => Some (VStr (inner_text s))
      | None => get k acc
      end.
Proof.
  induction secs as [|s secs IH]; intros acc; [reflexivity|].
  cbn [fold_left last_labelled]. rewrite IH.
  destruct (last_labelled k secs); [reflexivity|].
  rewrite sections_step_get. destruct (labelled k s); reflexivity.
Qed.

Lemma keys_set (k : string) (v : value) (d : dict) :
  map fst (set k v d)
  = if has_key k d then map fst d else (map fst d ++ [k])%list.
Proof.
  induction d as [|[k0 v0] d IH]; [reflexivity|].
  cbn [set has_key existsb fst]. fold (has_key k d).
  destruct (String.eqb k0 k) eqn:E; cbn [orb map fst].
  - reflexivity.
  - rewrite IH. destruct (has_key k d); reflexivity.
Qed.

Lemma has_key_in (k : string) (d : dict) :
  has_key k d = false -> ~ In k (map fst d).
Proof.
  intros H Hin. apply in_map_iff in Hin. destruct Hin as [kv [Hk Hin]].
  pose proof (has_key_false k d H kv Hin) as Hf.
  rewrite Hk, String.eqb_refl in Hf. discriminate.
Qed.

Lemma set_nodup (k : string) (v : value) (d : dict) :
  NoDup (map fst d) -> NoDup (map fst (set k v d)).
Proof.
  intros H. rewrite keys_set. destruct (has_key k d) eqn:E; [exact H|].
  apply NoDup_app.
  - exact H.
  - repeat constructor. intros [].
  - intros x Hx [<-|[]]. exact (has_key_in _ _ E Hx).
Qed.

Lemma sections_nodup (secs : list Element) :
  forall acc : dict,
    NoDup (map fst acc) -> NoDup (map fst (fold_left sections_step secs acc)).
Proof.
  induction secs as [|s secs IH]; intros acc H; [exact H|].
  cbn [fold_left]. apply IH. unfold sections_step.
  destruct (ET.get "Label" s) as [label|]; [|exact H].
  destruct (truthy label && truthy (inner_text s)); [|exact H].
  apply set_nodup. exact H.
Qed.

Lemma get_absent (k : string) (d : dict) :
  ~ In k (map fst d) -> get k d = None.
Proof.
  induction d as [|[k0 v0] d IH]; intros H; [reflexivity|].
  cbn [get]. destruct (String.eqb_spec k0 k) as [->|Hne].
  - exfalso. apply H. left; reflexivity.
  - apply IH. intros Hin. apply H. right; exact Hin.
Qed.

(** [d.update(other)] read back: a key of [other] gives the value of
    [other], any other key the value of [d]. *)
Lemma get_update (k : string) (other : dict) :
  NoDup (map fst other) ->
  forall d : dict,
    get k (update d other)
    = match get k other with
      | Some v => Some v
      | None => get k d
      end.
Proof.
  unfold update. induction other as [|[k0 v0] other IH]; intros H d;
    [reflexivity|].
  cbn [fold_left fst snd get]. inversion H as [|? ? Hnotin Hrest]; subst.
  rewrite (IH Hrest). destruct (String.eqb_spec k0 k) as [->|Hne].
  - rewrite (get_absent k other Hnotin). apply get_set_same.
  - destruct (get k other); [reflexivity|].
    apply get_set_other. apply String.eqb_neq. exact Hne.
Qed.

Lemma article_field (e : Element) (k : string) :
  String.eqb "Copyright" k = false ->
  exists d : dict,
    get k (parse_pubmed_article e)
    = match last_labelled k (field_sections e) with
      | Some s => Some (VStr (inner_text s))
      | None => get k d
      end
    /\ get "PublicationDate" d = Some (VStr (publication_date_article e)).
Proof.
  intros Hc. destruct (parse_pubmed_article_unfold e) as [d [-> [_ [_ Hp]]]].
  exists d. split; [|exact Hp].
  rewrite get_set_other by exact Hc.
  rewrite get_update by (apply sections_nodup; constructor).
  unfold sections_of. rewrite sections_get. unfold field_sections.
  destruct (last_labelled k _); reflexivity.
Qed.

(** With no section stored under [k], none is the last one. *)
Lemma last_labelled_none (k : string) (secs : list Element) :
  existsb (labelled k) secs = false -> last_labelled k secs = None.
Proof.
  induction secs as [|s secs IH]; [reflexivity|].
  cbn [existsb last_labelled]. intros H. apply orb_false_elim in H.
  destruct H as [Hs Hrest]. rewrite (IH Hrest), Hs. reflexivity.
Qed.

(** When some section is stored under [k], the last of them splits the
    list of sections: no section after it is stored under [k]. *)
Lemma last_labelled_split (k : string) (secs : list Element) :
  existsb (labelled k) secs = true ->
  exists (before : list Element) (s : Element) (after : list Element),
    secs = (before ++ s :: after)%list
    /\ labelled k s = true
    /\ existsb (labelled k) after = false
    /\ last_labelled k secs = Some s.
Proof.
  induction secs as [|s0 secs IH]; [discriminate|].
  cbn [existsb last_labelled]. intros H.
  destruct (existsb (labelled k) secs) eqn:E.
  - destruct (IH eq_refl) as [before [s [after [-> [Hs [Hafter Hlast]]]]]].
    exists (s0 :: before), s, after. rewrite Hlast.
    repeat split; assumption.
  - rewrite orb_false_r in H. exists [], s0, secs.
    rewrite (last_labelled_none k secs E), H.
    repeat split; assumption.
Qed.

(** Reading [.//PMID] of an element with no [PMID] descendant. *)
Lemma findtext_desc_none (t : string) (e : Element) :
  findall_desc t e = [] -> findtext_desc t e = None.
Proof. intros H. unfold findtext_desc, find_desc. rewrite H. reflexivity. Qed.

End NormalizerFacts.

Module NormalizerProps.
Import Text ET Py Normalizer Spec Examples DictFacts NormalizerFacts.
Local Open Scope string_scope.

(** C10 as stated fails: a record with no [PMID] element whose abstract
    has a section labelled ["PMID"] gets that section's text as its PMID
    field, by line 251. *)
Lemma missing_pmid_counterexample :
  findall_desc "PMID" pmid_label_article = []
  /\ get "PMID" (parse_pubmed_article pmid_label_article) = Some (VStr "x")
  /\ get "PMID" (parse_pubmed_article pmid_label_article) <> Some VNone.
Proof. repeat split; [vm_compute; discriminate]. Qed.

(** C10 (amended): for every raw record with no [PMID] element, the book
    normalizer returns a record whose PMID field is [None], and so does
    the article normalizer unless an abstract section with text carries
    the label ["PMID"]; in that case the field holds the text of that
    section, of the last such section when there are several. Neither
    function raises or substitutes a default. *)
Theorem missing_pmid_is_none (e : Element) :
  findall_desc "PMID" e = [] ->
  get "PMID" (parse_pubmed_book_article e) = Some VNone
  /\ (overridden "PMID" e = false ->
      get "PMID" (parse_pubmed_article e) = Some VNone)
  /\ (overridden "PMID" e = true ->
      exists (before : list Element) (s : Element) (after : list Element),
        field_sections e = (before ++ s :: after)%list
        /\ labelled "PMID" s = true
        /\ existsb (labelled "PMID") after = false
        /\ get "PMID" (parse_pubmed_article e) = Some (VStr (inner_text s))).
Proof.
  intros H. apply findtext_desc_none in H.
  split; [|split].
  - unfold parse_pubmed_book_article. rewrite H, !get_set. reflexivity.
  - intros Ho.
    destruct (parse_pubmed_article_unfold e) as [d [-> [Hp _]]].
    rewrite field_not_overridden by (reflexivity || exact Ho).
    rewrite Hp, H. reflexivity.
  - intros Ho.
    destruct (last_labelled_split "PMID" (field_sections e) Ho)
      as [before [s [after [Hsplit [Hs [Hafter Hlast]]]]]].
    exists before, s, after. repeat split; try assumption.
    destruct (article_field e "PMID" eq_refl) as [d [-> _]].
    rewrite Hlast. reflexivity.
Qed.

Lemma missing_pmid_is_none_witness :
  get "PMID" (parse_pubmed_book_article plain_book) = Some VNone
  /\ get "PMID" (parse_pubmed_article plain_article) = Some VNone
  /\ get "PMID" (parse_pubmed_article pmid_label_article) = Some (VStr "x").
Proof.
  split; [|split].
  - exact (proj1 (missing_pmid_is_none plain_book eq_refl)).
  - exact (proj1 (proj2 (missing_pmid_is_none plain_article eq_refl)) eq_refl).
  - destruct (proj2 (proj2 (missing_pmid_is_none pmid_label_article eq_refl))
                eq_refl)
      as [before [s [after [Hsplit [_ [_ Hget]]]]]].
    rewrite Hget. clear Hget.
    destruct before as [|s0 before].
    + injection Hsplit as <- _. reflexivity.
    + injection Hsplit as _ Hrest. destruct before; discriminate Hrest.
Defined.

Lemma strptime_b_range (data : string) (k : nat) :
  strptime_b data = Ret k ->
  (1 <= k <= 12)%nat /\ String.length (fmt02 k) = 2.
Proof.
  unfold strptime_b, a_month, index_of.
  repeat (destruct (String.eqb _ (lower data));
          [intros [= <-]; vm_compute; repeat constructor|]).
  discriminate.
Qed.

Lemma zeros_length (n : nat) : String.length (zeros n) = n.
Proof. induction n; simpl; congruence. Qed.

Lemma append_length (a b : string) :
  String.length (a ++ b) = String.length a + String.length b.
Proof. induction a; simpl; congruence. Qed.

Lemma zfill_length (w : nat) (s : string) :
  (w <= String.length (zfill w s))%nat.
Proof.
  unfold zfill. destruct s as [|c r].
  - rewrite zeros_length. simpl. lia.
  - destruct (Ascii.eqb c "+" || Ascii.eqb c "-")%bool; simpl;
      rewrite append_length, zeros_length; simpl; lia.
Qed.

Lemma zfill_long (w : nat) (s : string) :
  (w <= String.length s)%nat -> zfill w s = s.
Proof.
  intros H. unfold zfill.
  replace (w - String.length s) with 0 by lia. simpl.
  destruct s as [|c r]; [reflexivity|].
  destruct (Ascii.eqb c "+" || Ascii.eqb c "-")%bool; reflexivity.
Qed.

(** C7 as stated fails in its last part: with an unparsable month the
    day is still padded, so the result is not the raw year-month-day
    text. *)
Lemma publication_date_counterexample :
  strptime_b (prefix_slice 3 "Spring") = Raise ValueError
  /\ publication_date_article spring_article = "2020-Spring-05"
  /\ get "PublicationDate" (parse_pubmed_article spring_article)
     = Some (VStr "2020-Spring-05")
  /\ publication_date_article spring_article
     <> "2020" ++ "-" ++ "Spring" ++ "-" ++ "5".
Proof. repeat split; [vm_compute; discriminate]. Qed.

(** C7 (amended): for every article record with year, month and day all
    present, ["Jan"] and ["January"] are both converted to ["01"]; when
    the first three characters of the month are a month name the date is
    year, two-digit month number and day padded to two characters, joined
    by ["-"]; when they are not, the month is passed through unchanged
    and the day is still padded to two characters (the result is the raw
    text only when the day has two characters already); the conversion
    itself never raises, so the handler of line 214 is never entered.
    The record carries this date unless a section labelled
    ["PublicationDate"] overwrites it. *)
Theorem publication_date_rendering (e pd : Element) (y m d : string) :
  find_desc "PubDate" e = Some pd ->
  findtext_child "Year" pd = Some y ->
  findtext_child "Month" pd = Some m ->
  findtext_child "Day" pd = Some d ->
  truthy y = true -> truthy m = true -> truthy d = true ->
  _convert_month_to_number "Jan" = Ret "01"
  /\ _convert_month_to_number "January" = Ret "01"
  /\ (forall k, strptime_b (prefix_slice 3 m) = Ret k ->
        (1 <= k <= 12)%nat /\ String.length (fmt02 k) = 2
        /\ publication_date_article e
           = y ++ "-" ++ fmt02 k ++ "-" ++ zfill 2 d)
  /\ (strptime_b (prefix_slice 3 m) = Raise ValueError ->
        publication_date_article e = y ++ "-" ++ m ++ "-" ++ zfill 2 d)
  /\ (2 <= String.length (zfill 2 d))%nat
  /\ ((2 <= String.length d)%nat -> zfill 2 d = d)
  /\ (overridden "PublicationDate" e = false ->
        get "PublicationDate" (parse_pubmed_article e)
        = Some (VStr (publication_date_article e)))
  /\ (exists month_num, _convert_month_to_number m = Ret month_num).
Proof.
  intros Hpd Hy Hm Hd Ty Tm Td.
  assert (publication_date_article e
                    = match _convert_month_to_number m with
                      | Ret month_num => y ++ "-" ++ month_num ++ "-" ++ zfill 2 d
                      | _ => y ++ "-" ++ m ++ "-" ++ d
                      end) as Hdate.
  { unfold publication_date_article. rewrite Hpd, Hy, Hm, Hd.
    unfold article_pub_date. simpl. rewrite Ty, Tm, Td. reflexivity. }
  split; [reflexivity|]. split; [reflexivity|].
  split; [|split; [|split; [|split; [|split]]]].
  - intros k Hk. destruct (strptime_b_range _ _ Hk) as [Hr Hl].
    split; [exact Hr|]. split; [exact Hl|].
    rewrite Hdate. unfold _convert_month_to_number. rewrite Hk. reflexivity.
  - intros Hk. rewrite Hdate. unfold _convert_month_to_number. rewrite Hk.
    reflexivity.
  - apply zfill_length.
  - apply zfill_long.
  - intros Ho.
    destruct (parse_pubmed_article_unfold e) as [d0 [-> [_ [_ Hp]]]].
    rewrite field_not_overridden by (reflexivity || exact Ho).
    exact Hp.
  - unfold _convert_month_to_number, strptime_b.
    destruct (index_of _ _ _); eexists; reflexivity.
Qed.

Lemma publication_date_rendering_witness :
  publication_date_article january_article = "2020-01-05"
  /\ get "PublicationDate" (parse_pubmed_article january_article)
     = Some (VStr "2020-01-05").
Proof.
  pose proof (publication_date_rendering january_article
                (node "PubDate" (pub_date "2020" "Jan" "5"))
                "2020" "Jan" "5"
                eq_refl eq_refl eq_refl eq_refl eq_refl eq_refl eq_refl) as H.
  destruct H as [_ [_ [Hk [_ [_ [_ [Ho _]]]]]]].
  destruct (Hk 1 eq_refl) as [_ [_ Hdate]].
  split.
  - exact Hdate.
  - rewrite (Ho eq_refl), Hdate. reflexivity.
Defined.

End NormalizerProps.

Module AbstractProps.
Import Text ET Py Normalizer Spec Examples DictFacts NormalizerFacts.
Local Open Scope string_scope.

Lemma append_assoc (a b c : string) : (a ++ b) ++ c = a ++ (b ++ c).
Proof. induction a; simpl; congruence. Qed.

Lemma append_nil_r (a : string) : a ++ "" = a.
Proof. induction a; simpl; congruence. Qed.

Lemma existsb_app_one (t x : string) (l : list string) :
  existsb (String.eqb t) (l ++ [x])%list
  = existsb (String.eqb t) l || String.eqb t x.
Proof. rewrite existsb_app. simpl. rewrite orb_false_r. reflexivity. Qed.

Lemma abstract_step_duplicate (a : string) (cur : list string) (s : Element) :
  existsb (String.eqb (inner_text s)) cur = true ->
  abstract_step (a, cur) s = (a, cur).
Proof. intros H. unfold abstract_step. rewrite H. reflexivity. Qed.

Lemma abstract_step_fresh (a : string) (cur : list string) (s : Element) :
  existsb (String.eqb (inner_text s)) cur = false ->
  abstract_step (a, cur) s = (a ++ render s, (cur ++ [inner_text s])%list).
Proof.
  intros H. unfold abstract_step, render. rewrite H.
  destruct (ET.get "Label" s) as [label|]; [destruct (truthy label)|];
    reflexivity.
Qed.

(** The loop of lines 174-186 computes the specification's
    concatenation: the texts kept in [current_abstracts] and the texts of
    all sections met have the same members. *)
Lemma abstract_loop_refines (secs : list Element) :
  forall (a : string) (cur earlier : list string),
    (forall t, existsb (String.eqb t) cur = existsb (String.eqb t) earlier) ->
    fst (fold_left abstract_step secs (a, cur))
    = a ++ concat_all (map render (first_occurrences earlier secs)).
Proof.
  induction secs as [|s secs IH]; intros a cur earlier Hmem.
  - simpl. symmetry. apply append_nil_r.
  - cbn [fold_left first_occurrences].
    destruct (existsb (String.eqb (inner_text s)) earlier) eqn:E.
    + rewrite abstract_step_duplicate by (rewrite Hmem; exact E).
      apply IH. intros t. rewrite existsb_app_one, <- Hmem.
      destruct (String.eqb t (inner_text s)) eqn:Et.
      * apply String.eqb_eq in Et; subst t.
        rewrite (Hmem (inner_text s)), E. reflexivity.
      * rewrite orb_false_r. reflexivity.
    + rewrite abstract_step_fresh by (rewrite Hmem; exact E).
      rewrite (IH _ _ (earlier ++ [inner_text s])%list).
      * cbn [map concat_all fold_right]. apply append_assoc.
      * intros t. rewrite !existsb_app_one, Hmem. reflexivity.
Qed.

Lemma strip_empty : strip "" = "".
Proof. reflexivity. Qed.

Lemma abstract_of_assembled (e : Element) :
  abstract_of e = strip (assembled e).
Proof.
  unfold abstract_of, assembled, abstract_sections.
  destruct (find_desc "Abstract" e) as [abstract|].
  - rewrite (abstract_loop_refines _ "" [] [] (fun t => eq_refl)). simpl.
    destruct (concat_all _); reflexivity.
  - reflexivity.
Qed.

Lemma rstrip_fixed_tail (c : ascii) (r : string) :
  rstrip (String c r) = String c r -> rstrip r = r.
Proof.
  simpl. destruct (rstrip r) as [|c' r'] eqn:E.
  - destruct (isspace c); [discriminate|]. intros [= <-]. reflexivity.
  - intros [= <-]. reflexivity.
Qed.

Lemma rstrip_lstrip_fixed (s : string) :
  rstrip s = s -> rstrip (lstrip s) = lstrip s.
Proof.
  induction s as [|c r IH]; intros H; [reflexivity|].
  simpl lstrip. destruct (isspace c); [|exact H].
  apply IH. exact (rstrip_fixed_tail c r H).
Qed.

Lemma rstrip_cons (c : ascii) (r : string) :
  rstrip (String c r)
  = match rstrip r with
    | EmptyString => if isspace c then EmptyString else String c EmptyString
    | r' => String c r'
    end.
Proof. reflexivity. Qed.

Lemma rstrip_idem (s : string) : rstrip (rstrip s) = rstrip s.
Proof.
  induction s as [|c r IH]; [reflexivity|].
  rewrite rstrip_cons. destruct (rstrip r) as [|c' r'] eqn:E.
  - destruct (isspace c) eqn:Ec; [reflexivity|].
    rewrite rstrip_cons. simpl. rewrite Ec. reflexivity.
  - rewrite rstrip_cons, IH. reflexivity.
Qed.

(** Stripped text has no blank at its end. *)
Lemma rstrip_strip (s : string) : rstrip (strip s) = strip s.
Proof. unfold strip. apply rstrip_lstrip_fixed, rstrip_idem. Qed.

Lemma rstrip_nl (s : string) : rstrip (s ++ nl) = rstrip s.
Proof.
  induction s as [|c r IH]; [reflexivity|].
  simpl. rewrite IH. reflexivity.
Qed.

Lemma rstrip_app (a b : string) :
  truthy (rstrip b) = true -> rstrip (a ++ b) = a ++ rstrip b.
Proof.
  intros H. induction a as [|c r IH]; [reflexivity|].
  simpl. rewrite IH. destruct (r ++ rstrip b) eqn:E; [|reflexivity].
  destruct r; simpl in E; [|discriminate]. rewrite E in H. discriminate.
Qed.

(** C8 as stated fails: the abstract is stripped at both ends, so a blank
    first section leaves no leading line break; a labelled section
    without text is no top-level field; and a section labelled
    ["Abstract"] replaces the assembled abstract in the record. *)
Lemma abstract_assembly_counterexample :
  abstract_of empty_first_article = "x"
  /\ rstrip (assembled empty_first_article) = nl ++ "x"
  /\ abstract_of empty_first_article <> rstrip (assembled empty_first_article)
  /\ inner_text (section (Some "Methods") "") <> inner_text (section (Some "Results") "r")
  /\ get "Methods" (parse_pubmed_article empty_methods_article) = None
  /\ abstract_of abstract_label_article = "Abstract: x" ++ nl ++ "y"
  /\ get "Abstract" (parse_pubmed_article abstract_label_article) = Some (VStr "x").
Proof. repeat split; vm_compute; discriminate. Qed.

(** C8 (amended): for every article record the abstract is the
    concatenation of ["<Label>: <text>\n"] (unlabelled: ["<text>\n"]) over
    the sections of the first [Abstract] element, leaving out every
    section whose stripped text equals that of an earlier section, with
    white space then trimmed at both ends; the record carries it unless a
    section labelled ["Abstract"] overwrites it. Two sections labelled
    ["Methods"] and ["Results"] with distinct non-empty texts, alone in
    the only [Abstract] element, give ["Methods: <text>\nResults: <text>"]
    and the top-level fields [Methods] and [Results]. *)
Theorem abstract_assembly (e : Element) :
  abstract_of e = strip (assembled e)
  /\ (overridden "Abstract" e = false ->
      get "Abstract" (parse_pubmed_article e) = Some (VStr (abstract_of e)))
  /\ (forall abstract s1 s2 : Element,
        findall_desc "Abstract" e = [abstract] ->
        findall_child "AbstractText" abstract = [s1; s2] ->
        ET.get "Label" s1 = Some "Methods" ->
        ET.get "Label" s2 = Some "Results" ->
        inner_text s1 <> inner_text s2 ->
        truthy (inner_text s1) = true ->
        truthy (inner_text s2) = true ->
        abstract_of e
        = "Methods: " ++ inner_text s1 ++ nl ++ "Results: " ++ inner_text s2
        /\ get "Abstract" (parse_pubmed_article e) = Some (VStr (abstract_of e))
        /\ get "Methods" (parse_pubmed_article e) = Some (VStr (inner_text s1))
        /\ get "Results" (parse_pubmed_article e) = Some (VStr (inner_text s2))).
Proof.
  split; [apply abstract_of_assembled|]. split.
  - intros Ho.
    destruct (parse_pubmed_article_unfold e) as [d [-> [_ [Ha _]]]].
    rewrite field_not_overridden by (reflexivity || exact Ho).
    exact Ha.
  - intros abstract s1 s2 Habs Hsecs L1 L2 Hneq T1 T2.
    assert (sections_of e
            = [("Methods", VStr (inner_text s1)); ("Results", VStr (inner_text s2))])
      as Hsections.
    { unfold sections_of, findall_desc_child. rewrite Habs. simpl.
      rewrite Hsecs. simpl. unfold sections_step.
      rewrite L1, L2, T1, T2. reflexivity. }
    destruct (parse_pubmed_article_unfold e) as [d [-> [_ [Ha _]]]].
    rewrite Hsections. unfold update. cbn [fold_left fst snd].
    rewrite !get_set. cbn [String.eqb Ascii.eqb Bool.eqb].
    rewrite Ha.
    repeat split; try reflexivity.
    unfold abstract_of, find_desc. rewrite Habs. cbn [hd_error]. rewrite Hsecs.
    cbn [fold_left].
    rewrite abstract_step_fresh by reflexivity.
    rewrite abstract_step_fresh
      by (cbn [existsb app]; rewrite orb_false_r; apply String.eqb_neq;
          intros Heq; apply Hneq; symmetry; exact Heq).
    unfold render. rewrite L1, L2. cbn [truthy fst].
    cbn [String.append]. rewrite !append_assoc. cbn [String.append truthy].
    assert (rstrip (inner_text s2) = inner_text s2) as Hfix
      by (unfold inner_text; apply rstrip_strip).
    set (t1 := inner_text s1) in *. set (t2 := inner_text s2) in *.
    unfold strip.
    match goal with
    | |- lstrip (rstrip ?A) = ?B =>
        replace A with ((("Methods: " ++ t1 ++ nl ++ "Results: ") ++ t2) ++ nl)
          by (repeat first [rewrite !append_assoc | progress cbn [String.append]];
              reflexivity);
        replace B with (("Methods: " ++ t1 ++ nl ++ "Results: ") ++ t2)
          by (repeat first [rewrite !append_assoc | progress cbn [String.append]];
              reflexivity)
    end.
    rewrite rstrip_nl, rstrip_app by (rewrite Hfix; exact T2).
    rewrite Hfix. reflexivity.
Qed.

Lemma abstract_assembly_witness :
  abstract_of plain_article = "Methods: m" ++ nl ++ "Results: r"
  /\ get "Methods" (parse_pubmed_article plain_article) = Some (VStr "m")
  /\ get "Results" (parse_pubmed_article plain_article) = Some (VStr "r").
Proof.
  destruct (abstract_assembly plain_article) as [_ [_ H]].
  destruct (H (node "Abstract" [section (Some "Methods") "m"; section (Some "Results") "r"])
              (section (Some "Methods") "m") (section (Some "Results") "r")
              eq_refl eq_refl eq_refl eq_refl
              ltac:(vm_compute; discriminate) eq_refl eq_refl)
    as [Ha [_ [Hm Hr]]].
  repeat split; assumption.
Defined.

End AbstractProps.

Module WindowProps.
Import Py ET Calendar CustomPubMed Windows.
Local Open Scope Z_scope.

Lemma min3_le_cap (remaining : budget) (total_available : Z) :
  (min3 remaining total_available <=? 9999) = true.
Proof. apply Z.leb_le. destruct remaining; simpl; lia. Qed.

(** The test of line 379 always succeeds, so [recursive_load] is its first
    branch. *)
Lemma recursive_load_first_branch (R : Remote) (fuel : nat) (query : string)
    (start end_ : datetime) (remaining : budget) (log : list request) :
  recursive_load R (S fuel) query start end_ remaining log
  = load_without_split R (S fuel) query start end_ remaining log.
Proof.
  unfold load_without_split. cbn [recursive_load]. unfold bind.
  destruct (search_with_history R (full_query query start end_) log)
    as [[sr| |] log']; try reflexivity.
  destruct (count sr =? 0); [reflexivity|].
  rewrite min3_le_cap. reflexivity.
Qed.

(** C4: for every window whose search reports no record,
    [recursive_load] (and [load_articles_by_date]) returns the empty list
    and sends the search request only: the requests of the log are the
    earlier ones followed by that ESearch, with no EFetch added. *)
Theorem empty_window_no_fetch (R : Remote) (fuel : nat) (query : string)
    (start end_ : datetime) (remaining : budget) (log : list request)
    (search_results : SearchResults) :
  esearch R (List.length log) (full_query query start end_) = Ret search_results ->
  count search_results = 0 ->
  recursive_load R (S fuel) query start end_ remaining log
  = (Ret [], log ++ [ESearch (full_query query start end_)])
  /\ fetches (snd (recursive_load R (S fuel) query start end_ remaining log))
     = fetches log.
Proof.
  intros Hs Hc.
  assert (recursive_load R (S fuel) query start end_ remaining log
          = (Ret [], log ++ [ESearch (full_query query start end_)])) as H.
  { cbn [recursive_load]. unfold bind, search_with_history.
    rewrite Hs, Hc. reflexivity. }
  split; [exact H|].
  rewrite H. unfold fetches. cbn [snd]. rewrite filter_app. simpl.
  apply app_nil_r.
Qed.

Lemma empty_window_no_fetch_witness :
  recursive_load (stock_remote 0) 1 "glymph*" window_start window_end (Fin 100) []
  = (Ret [], [ESearch (full_query "glymph*" window_start window_end)]).
Proof.
  exact (proj1 (empty_window_no_fetch (stock_remote 0) 0 "glymph*"
                  window_start window_end (Fin 100) [] _ eq_refl eq_refl)).
Defined.

(** The loop of [fetch_articles] under full pages: from [fetched] records
    on, it adds exactly the [m - fetched] missing ones. *)
Lemma fetch_loop_full (R : Remote) (webenv query_key : option string) (m : Z) :
  (forall retstart retmax,
      0 <= retstart -> 0 < retmax -> retstart + retmax <= m ->
      full_page R webenv query_key retstart retmax) ->
  forall (fuel : nat) (articles : list dict) (fetched : Z) (log : list request),
    0 < m -> 0 <= fetched <= m ->
    m - fetched + 1000 <= 1000 * Z.of_nat fuel ->
    exists more log',
      fetch_loop R fuel webenv query_key 1000 (Some m) articles fetched log
      = (Ret (articles ++ more), log')
      /\ Z.of_nat (List.length more) = m - fetched.
Proof.
  intros Hfull. induction fuel as [|fuel IH]; intros articles fetched log Hm Hf Hfuel.
  - simpl in Hfuel. lia.
  - cbn [fetch_loop].
    assert (ztruthy m = true) as Hz
      by (unfold ztruthy; destruct (Z.eqb_spec m 0); [lia | reflexivity]).
    rewrite Hz. cbn [andb].
    destruct (Z.geb_spec fetched m) as [Hge|Hlt].
    + exists [], log. split.
      * unfold ret. rewrite app_nil_r. reflexivity.
      * simpl. lia.
    + set (current_batch_size :=
             if m - fetched <? 1000 then m - fetched else 1000).
      assert (0 < current_batch_size /\ fetched + current_batch_size <= m
              /\ (current_batch_size = 1000 \/ fetched + current_batch_size = m))
        as [Hpos [Hle Hcase]]
        by (unfold current_batch_size;
            destruct (Z.ltb_spec (m - fetched) 1000); lia).
      unfold bind, fetch_page.
      destruct (Hfull fetched current_batch_size ltac:(lia) Hpos Hle (List.length log))
        as [root [Hroot Hlen]].
      rewrite Hroot.
      destruct (parse_page root) as [|a batch] eqn:Hbatch.
      * simpl in Hlen. lia.
      * destruct (IH (articles ++ a :: batch) (fetched + current_batch_size)
                     (log ++ [EFetch webenv query_key fetched current_batch_size])
                     Hm ltac:(lia) ltac:(lia))
          as [more [log' [Hrun Hmore]]].
        exists ((a :: batch) ++ more), log'. split.
        -- rewrite Hrun, app_assoc. reflexivity.
        -- rewrite length_app, Nat2Z.inj_add, Hmore, Hlen. lia.
Qed.

(** C2: for every window whose search reports at most 9999 records and
    every positive budget, [recursive_load] returns exactly
    [min(remaining, available)] records, provided every page requested
    below that count comes back full; eleven units of fuel are enough. *)
Theorem window_within_cap (R : Remote) (fuel : nat) (query : string)
    (start end_ : datetime) (remaining : budget) (log : list request)
    (search_results : SearchResults) :
  esearch R (List.length log) (full_query query start end_) = Ret search_results ->
  0 <= count search_results <= 9999 ->
  positive remaining ->
  (forall retstart retmax,
      0 <= retstart -> 0 < retmax ->
      retstart + retmax <= wanted remaining (count search_results) ->
      full_page R (WebEnv search_results) (QueryKey search_results)
                retstart retmax) ->
  (11 <= fuel)%nat ->
  exists articles log',
    recursive_load R fuel query start end_ remaining log = (Ret articles, log')
    /\ Z.of_nat (List.length articles) = wanted remaining (count search_results).
Proof.
  intros Hs Hc Hpos Hfull Hfuel.
  destruct fuel as [|fuel]; [lia|].
  rewrite recursive_load_first_branch.
  unfold load_without_split, bind, search_with_history. rewrite Hs.
  destruct (Z.eqb_spec (count search_results) 0) as [H0|H0].
  - exists [], (log ++ [ESearch (full_query query start end_)]). split.
    + reflexivity.
    + rewrite H0. destruct remaining; simpl in *; lia.
  - assert (min3 remaining (count search_results)
            = wanted remaining (count search_results)) as Hw
      by (destruct remaining; simpl in *; lia).
    rewrite Hw in *.
    assert (0 < wanted remaining (count search_results) <= 9999) as Hrange
      by (destruct remaining; simpl in *; lia).
    unfold fetch_articles.
    destruct (fetch_loop_full R (WebEnv search_results) (QueryKey search_results)
                _ Hfull (S fuel) [] 0
                (log ++ [ESearch (full_query query start end_)])
                ltac:(lia) ltac:(lia) ltac:(lia))
      as [more [log' [Hrun Hmore]]].
    exists more, log'. split; [exact Hrun | lia].
Qed.

Lemma stock_descendants (k : nat) :
  flat_map iter (repeat (Elem "PubmedArticle" [] None [] None) k)
  = repeat (Elem "PubmedArticle" [] None [] None) k.
Proof. induction k; simpl; congruence. Qed.

Lemma stock_page_records (n retstart retmax : Z) :
  List.length (parse_page (stock_page n retstart retmax))
  = Z.to_nat (Z.min retmax (n - retstart)).
Proof.
  unfold parse_page, findall_desc, descendants, stock_page. cbn [children].
  rewrite stock_descendants.
  generalize (Z.to_nat (Z.min retmax (n - retstart))) as k.
  intros k. rewrite length_app, !length_map.
  induction k as [|k IH]; [reflexivity|].
  cbn [repeat filter has_tag tag]. cbn [String.eqb Ascii.eqb Bool.eqb].
  simpl List.length. simpl in IH. lia.
Qed.

Lemma stock_remote_full_page (n retstart retmax : Z) :
  0 <= retmax -> retstart + retmax <= n ->
  full_page (stock_remote n) (Some "MCID_1"%string) (Some "1"%string)
            retstart retmax.
Proof.
  intros H0 H1 k. exists (stock_page n retstart retmax). split; [reflexivity|].
  rewrite stock_page_records. lia.
Qed.

Lemma window_within_cap_witness :
  exists articles log',
    recursive_load (stock_remote 5) 11 "glymph*" window_start window_end
                   (Fin 3) []
    = (Ret articles, log')
    /\ Z.of_nat (List.length articles) = 3.
Proof.
  apply (window_within_cap (stock_remote 5) 11 "glymph*" window_start
           window_end (Fin 3) []
           {| count := 5; WebEnv := Some "MCID_1"%string;
              QueryKey := Some "1"%string |}).
  - reflexivity.
  - simpl. lia.
  - simpl. lia.
  - intros retstart retmax H0 H1 H2. simpl in H2.
    apply stock_remote_full_page; lia.
  - lia.
Defined.

(** C1: the bisection branch is never taken. For every call,
    [recursive_load] is the search followed by the paged fetch of at most
    9999 records, whatever count the search reports; on a window for which
    the remote reports 10000 records and with an unbounded budget, the
    only search sent is that of the whole window and 9999 records are
    returned. *)
Theorem bisection_never_taken :
  (forall (R : Remote) (fuel : nat) (query : string) (start end_ : datetime)
          (remaining : budget) (log : list request),
      recursive_load R (S fuel) query start end_ remaining log
      = load_without_split R (S fuel) query start end_ remaining log)
  /\ searches (snd (recursive_load (stock_remote 10000) 12 "glymph*"
                                   window_start window_end Inf []))
     = [ESearch (full_query "glymph*" window_start window_end)]
  /\ returned (fst (recursive_load (stock_remote 10000) 12 "glymph*"
                                   window_start window_end Inf []))
     = Some 9999.
Proof.
  split; [exact recursive_load_first_branch|].
  split; vm_compute; reflexivity.
Qed.

End WindowProps.

Module GateProps.
Import Py RateLimiter Gate.
Local Open Scope Z_scope.

Lemma count_gt_app (x : Z) (l1 l2 : list Z) :
  count_gt x (l1 ++ l2) = (count_gt x l1 + count_gt x l2)%nat.
Proof. unfold count_gt. rewrite filter_app, length_app. reflexivity. Qed.

Lemma count_gt_le_length (x : Z) (l : list Z) :
  (count_gt x l <= List.length l)%nat.
Proof. apply filter_length_le. Qed.

Lemma count_gt_antitone (x y : Z) (l : list Z) :
  x <= y -> (count_gt y l <= count_gt x l)%nat.
Proof.
  intros H. unfold count_gt. induction l as [|r l IH]; simpl; [lia|].
  destruct (Z.gtb_spec r y), (Z.gtb_spec r x); simpl; lia.
Qed.

(** Eviction at time [ct] removes nothing later than [ct - 1s]. *)
Lemma count_gt_evict (ct x : Z) (l : list Z) :
  ct - second <= x ->
  count_gt x (filter (fun r => r >? ct - second) l) = count_gt x l.
Proof.
  intros H. unfold count_gt. induction l as [|r l IH]; simpl; [reflexivity|].
  destruct (Z.gtb_spec r (ct - second)) as [A|A]; simpl.
  - destruct (Z.gtb_spec r x); simpl; rewrite IH; reflexivity.
  - destruct (Z.gtb_spec r x); [lia | exact IH].
Qed.

Lemma sent_le_count_gt (t : Z) (l : list Z) :
  (sent_within_last_second t l <= count_gt (t - second) l)%nat.
Proof.
  unfold sent_within_last_second, count_gt.
  induction l as [|d l IH]; simpl; [lia|].
  destruct (Z.ltb_spec (t - second) d), (Z.leb_spec d t), (Z.gtb_spec d (t - second));
    simpl; lia.
Qed.

Lemma sent_app_one (t d : Z) (l : list Z) :
  sent_within_last_second t (l ++ [d])
  = (sent_within_last_second t l
     + if ((t - second <? d) && (d <=? t))%Z then 1 else 0)%nat.
Proof.
  unfold sent_within_last_second. rewrite filter_app, length_app. simpl.
  destruct ((t - second <? d) && (d <=? t)); reflexivity.
Qed.

(** Eviction a second or more after every kept timestamp empties the
    list. *)
Lemma evict_all (ct b : Z) (l : list Z) :
  Forall (fun r => r <= b) l -> b + second <= ct ->
  filter (fun r => r >? ct - second) l = [].
Proof.
  intros H Hb. induction H as [|r l Hr _ IH]; simpl; [reflexivity|].
  destruct (Z.gtb_spec r (ct - second)); [lia | exact IH].
Qed.

Lemma Forall_le_trans (b b' : Z) (l : list Z) :
  b <= b' -> Forall (fun r => r <= b) l -> Forall (fun r => r <= b') l.
Proof.
  intros H. apply Forall_impl. intros r Hr. lia.
Qed.

Section Timing.

Variable elapse : nat -> N.
Variable http_ok : nat -> bool.

Lemma pass_clock (c : client) : clock c <= clock (pass elapse c).
Proof. simpl. lia. Qed.

Lemma between_calls_later (c c' : client) :
  clock c <= clock c' ->
  _requestsMade c' = _requestsMade c ->
  dispatched c' = dispatched c ->
  between_calls c -> between_calls c'.
Proof.
  intros Hc Hr Hd [I1 [I2 [I3 I4]]]. unfold between_calls. rewrite Hr, Hd.
  repeat split.
  - exact (Forall_le_trans _ _ _ Hc I1).
  - exact (Forall_le_trans _ _ _ Hc I2).
  - intros x Hx. apply I3. lia.
  - exact I4.
Qed.

(** One check of the gate keeps the invariant and only moves the clock
    forward. *)
Lemma check_between_calls (c : client) :
  between_calls c ->
  between_calls (snd (_exceededRateLimit elapse c))
  /\ clock c <= clock (snd (_exceededRateLimit elapse c))
  /\ dispatched (snd (_exceededRateLimit elapse c)) = dispatched c
  /\ incl (_requestsMade (snd (_exceededRateLimit elapse c))) (_requestsMade c).
Proof.
  intros [I1 [I2 [I3 I4]]].
  unfold _exceededRateLimit, now. cbn [snd fst clock dispatched _requestsMade pass ticks].
  set (ct := clock c + Z.of_N (elapse (ticks c))).
  assert (clock c <= ct) as Hct by (unfold ct; lia).
  repeat split; cbn [clock dispatched _requestsMade].
  - apply Forall_forall. intros r Hr. apply filter_In in Hr. destruct Hr as [Hr _].
    rewrite Forall_forall in I1. specialize (I1 r Hr). lia.
  - exact (Forall_le_trans _ _ _ Hct I2).
  - intros x Hx. cbn [clock] in Hx. rewrite count_gt_evict by exact Hx. apply I3. lia.
  - exact I4.
  - exact Hct.
  - intros r Hr. apply filter_In in Hr. exact (proj1 Hr).
Qed.

Lemma check_verdict (c : client) :
  fst (_exceededRateLimit elapse c) = false ->
  (List.length (_requestsMade (snd (_exceededRateLimit elapse c))) < 3)%nat
  /\ Forall (fun r => clock (snd (_exceededRateLimit elapse c)) - second < r)
            (_requestsMade (snd (_exceededRateLimit elapse c))).
Proof.
  unfold _exceededRateLimit, now, _rateLimit.
  cbn [snd fst clock dispatched _requestsMade pass ticks].
  intros H. split.
  - destruct (Z.geb_spec (Z.of_nat (List.length
        (filter (fun req_time => req_time >? clock c + Z.of_N (elapse (ticks c)) - second)
                (_requestsMade c)))) 3); [discriminate | lia].
  - apply Forall_forall. intros r Hr. apply filter_In in Hr. destruct Hr as [_ Hr].
    apply Z.gtb_lt in Hr. lia.
Qed.

(** The gate lets a request through only with fewer than three
    timestamps kept, all of the last second. *)
Lemma gate_passes (fuel : nat) :
  forall c c' : client,
    gate elapse fuel c = Some c' ->
    (Z.of_nat (List.length (_requestsMade c')) < _rateLimit)
    /\ Forall (fun r => clock c' - second < r) (_requestsMade c').
Proof.
  induction fuel as [|fuel IH]; intros c c' H; [discriminate|].
  cbn [gate] in H.
  destruct (_exceededRateLimit elapse c) as [exceeded c1] eqn:E.
  destruct exceeded.
  - exact (IH _ _ H).
  - injection H as <-.
    pose proof (check_verdict c) as V. rewrite E in V. cbn [fst snd] in V.
    destruct (V eq_refl) as [V1 V2]. unfold _rateLimit. split; [lia | exact V2].
Qed.

(** With every kept timestamp at most [b] and enough checks left to let
    a second go by since [b], the gate opens. *)
Lemma gate_opens (fuel : nat) :
  forall (c : client) (b : Z),
    between_calls c ->
    Forall (fun r => r <= b) (_requestsMade c) ->
    (1 <= fuel)%nat ->
    b + second <= clock c + 100000 * (Z.of_nat fuel - 1) ->
    exists c',
      gate elapse fuel c = Some c'
      /\ between_calls c' /\ clock c <= clock c'
      /\ dispatched c' = dispatched c.
Proof.
  induction fuel as [|fuel IH]; intros c b Inv Hb Hf Hclock; [lia|].
  cbn [gate].
  destruct (check_between_calls c Inv) as [Inv1 [Hc1 [Hd1 Hincl]]].
  pose proof (check_verdict c) as V.
  destruct (_exceededRateLimit elapse c) as [exceeded c1] eqn:E.
  cbn [fst snd] in *.
  destruct exceeded.
  - assert (Forall (fun r => r <= b) (_requestsMade c1)) as Hb1.
    { apply Forall_forall. intros r Hr. rewrite Forall_forall in Hb.
      apply Hb, Hincl, Hr. }
    assert (between_calls (sleep elapse 100000 c1)
            /\ clock c1 + 100000 <= clock (sleep elapse 100000 c1)) as [Inv2 Hc2].
    { split.
      - apply (between_calls_later c1); [simpl; lia | reflexivity | reflexivity | exact Inv1].
      - simpl. lia. }
    destruct fuel as [|fuel'].
    + exfalso. unfold _exceededRateLimit, now in E.
      rewrite (evict_all (clock (pass elapse c)) b) in E.
      * simpl in E. discriminate.
      * exact Hb.
      * simpl in *. lia.
    + destruct (IH (sleep elapse 100000 c1) b Inv2 Hb1 ltac:(lia) ltac:(lia))
        as [c' [Hg [Inv' [Hc' Hd']]]].
      exists c'. split; [exact Hg|]. split; [exact Inv'|].
      split; [lia|]. rewrite Hd'. simpl. exact Hd1.
  - exists c1. repeat split; try assumption; apply Inv1.
Qed.

(** A new dispatch at [d], no earlier than the moment the gate opened
    with at most two timestamps kept, keeps every interval of one second
    at three dispatches or fewer. *)
Lemma dispatch_rate (c1 : client) (d : Z) :
  between_calls c1 ->
  (List.length (_requestsMade c1) < 3)%nat ->
  clock c1 <= d ->
  forall t, (sent_within_last_second t (dispatched c1 ++ [d]) <= 3)%nat.
Proof.
  intros [I1 [I2 [I3 I4]]] Hlen Hd t. rewrite sent_app_one.
  destruct ((t - second <? d) && (d <=? t)) eqn:E.
  - apply andb_prop in E. destruct E as [E1 E2].
    apply Z.ltb_lt in E1. apply Z.leb_le in E2.
    pose proof (sent_le_count_gt t (dispatched c1)) as H1.
    pose proof (count_gt_antitone (d - second) (t - second) (dispatched c1)
                                  ltac:(lia)) as H2.
    pose proof (I3 (d - second) ltac:(lia)) as H3.
    pose proof (count_gt_le_length (d - second) (_requestsMade c1)) as H4.
    lia.
  - pose proof (I4 t). lia.
Qed.

(** One call of [_get] with fuel for eleven checks: it answers, and
    leaves the invariant (after a success) or at least the rate bound
    (after a failing status). *)
Lemma get_between_calls (fuel i : nat) (c : client) :
  (11 <= fuel)%nat ->
  between_calls c ->
  match _get elapse http_ok fuel i c with
  | (Ret _, c') =>
      between_calls c'
      /\ List.length (dispatched c') = S (List.length (dispatched c))
  | (Raise _, c') =>
      forall t, (sent_within_last_second t (dispatched c') <= 3)%nat
  | (Timeout, _) => False
  end.
Proof.
  intros Hfuel Inv. unfold _get.
  destruct (gate_opens fuel c (clock c) Inv (proj1 Inv) ltac:(lia)
                       ltac:(unfold second; lia))
    as [c1 [Hg [Inv1 [Hc1 Hd1]]]].
  rewrite Hg.
  destruct (gate_passes fuel c c1 Hg) as [Hlen _]. unfold _rateLimit in Hlen.
  assert (forall t,
             (sent_within_last_second
                t (dispatched c1 ++ [clock (pass elapse c1)]) <= 3)%nat) as Hrate
    by (apply dispatch_rate; [exact Inv1 | lia | apply pass_clock]).
  destruct (http_ok i).
  - unfold now. cbn [fst snd clock ticks dispatched _requestsMade pass].
    destruct Inv1 as [I1 [I2 [I3 I4]]].
    set (d := clock c1 + Z.of_N (elapse (ticks c1))) in *.
    set (t4 := d + Z.of_N (elapse (S (ticks c1)))).
    set (t5 := t4 + Z.of_N (elapse (S (S (ticks c1))))).
    assert (clock c1 <= d /\ d <= t5) as [Hd Ht5] by (unfold t5, t4, d; lia).
    split; [|rewrite length_app, Hd1; simpl; lia].
    unfold between_calls. cbn [clock dispatched _requestsMade].
    repeat split.
    + apply Forall_app. split.
      * eapply Forall_le_trans; [ | exact I1 ]; lia.
      * repeat constructor. lia.
    + apply Forall_app. split.
      * eapply Forall_le_trans; [ | exact I2 ]; lia.
      * repeat constructor. exact Ht5.
    + intros x Hx. rewrite !count_gt_app.
      pose proof (I3 x ltac:(lia)) as H3.
      unfold count_gt at 2 4. simpl.
      destruct (Z.gtb_spec d x), (Z.gtb_spec t5 x); simpl; lia.
    + exact Hrate.
  - exact Hrate.
Qed.

Lemma session_rate (fuel n : nat) :
  (11 <= fuel)%nat ->
  forall (i : nat) (c : client),
    between_calls c ->
    fst (session elapse http_ok fuel n i c) <> Timeout
    /\ (fst (session elapse http_ok fuel n i c) = Ret tt ->
        List.length (dispatched (snd (session elapse http_ok fuel n i c)))
        = (List.length (dispatched c) + n)%nat)
    /\ (forall t,
           (sent_within_last_second
              t (dispatched (snd (session elapse http_ok fuel n i c))) <= 3)%nat).
Proof.
  intros Hfuel. induction n as [|n IH]; intros i c Inv.
  - simpl. repeat split; [discriminate | lia | apply Inv].
  - cbn [session]. pose proof (get_between_calls fuel i c Hfuel Inv) as G.
    destruct (_get elapse http_ok fuel i c) as [[[]| e |] c'].
    + destruct G as [Inv' Hlen]. destruct (IH (S i) c' Inv') as [H1 [H2 H3]].
      repeat split; [exact H1 | | exact H3].
      intros Hr. rewrite (H2 Hr), Hlen. lia.
    + cbn [fst snd]. repeat split; [discriminate | discriminate | exact G].
    + destruct G.
Qed.

End Timing.

Lemma fresh_between_calls (t0 : Z) : between_calls (fresh t0).
Proof.
  unfold between_calls, fresh. cbn [clock dispatched _requestsMade].
  split; [constructor|]. split; [constructor|].
  split; intros; unfold count_gt, sent_within_last_second; simpl; lia.
Qed.

(** C6: in every run of a client, whatever time each step takes and
    whichever request fails, no interval [(t - 1 s, t]] holds more than
    three dispatched requests; the gate needs at most eleven checks, and
    it lets a request through only when fewer than three timestamps, all
    of the last second, are kept. *)
Theorem at_most_three_per_second
    (elapse : nat -> N) (http_ok : nat -> bool) (t0 : Z) (n k : nat) :
  fst (session elapse http_ok (11 + k) n 0 (fresh t0)) <> Timeout
  /\ (fst (session elapse http_ok (11 + k) n 0 (fresh t0)) = Ret tt ->
      List.length (dispatched (snd (session elapse http_ok (11 + k) n 0 (fresh t0))))
      = n)
  /\ (forall t,
         (sent_within_last_second
            t (dispatched (snd (session elapse http_ok (11 + k) n 0 (fresh t0))))
          <= 3)%nat)
  /\ (forall (fuel : nat) (c c' : client),
         gate elapse fuel c = Some c' ->
         Z.of_nat (List.length (_requestsMade c')) < _rateLimit
         /\ Forall (fun r => clock c' - second < r) (_requestsMade c')).
Proof.
  destruct (session_rate elapse http_ok (11 + k) n ltac:(lia) 0%nat (fresh t0)
                         (fresh_between_calls t0)) as [H1 [H2 H3]].
  repeat split.
  - exact H1.
  - exact H2.
  - exact H3.
  - exact (proj1 (gate_passes elapse fuel c c' H)).
  - exact (proj2 (gate_passes elapse fuel c c' H)).
Qed.

(** Five requests on an infinitely fast machine: three leave at once,
    the fourth a full second later. *)
Lemma at_most_three_per_second_witness :
  dispatched (snd (session instant always_ok 11 5 0 (fresh 0)))
  = [0; 0; 0; 1000000; 1000000]
  /\ (sent_within_last_second
        1000000 (dispatched (snd (session instant always_ok 11 5 0 (fresh 0))))
      <= 3)%nat
  /\ (forall c', gate instant 11 (fresh 0) = Some c' ->
                 Z.of_nat (List.length (_requestsMade c')) < _rateLimit).
Proof.
  pose proof (at_most_three_per_second instant always_ok 0 5 0) as [_ [_ [H G]]].
  split; [reflexivity|]. split.
  - exact (H 1000000).
  - intros c' Hc'. exact (proj1 (G 11%nat (fresh 0) c' Hc')).
Defined.

End GateProps.

Module JobProps.
Import Py Calendar CustomPubMed ArticleLoader Windows Job.
Local Open Scope Z_scope.

(** *** Rules of the triples *)

Lemma triple_ret {A} (P : job -> Prop) (a : A) (Q : A -> job -> Prop)
    (E : job -> Prop) :
  (forall j, P j -> Q a j) -> triple P (jret a) Q E.
Proof. intros H j Hj. exact (H j Hj). Qed.

Lemma triple_bind {A B} (P : job -> Prop) (m : J A) (Q : A -> job -> Prop)
    (k : A -> J B) (Q' : B -> job -> Prop) (E : job -> Prop) :
  triple P m Q E ->
  (forall a, triple (Q a) (k a) Q' E) ->
  triple P (jbind m k) Q' E.
Proof.
  intros Hm Hk j Hj. unfold jbind. specialize (Hm j Hj).
  destruct (m j) as [[a| e |] j']; [|exact Hm|exact Hm].
  exact (Hk a j' Hm).
Qed.

Lemma triple_write (P : job -> Prop) (f : loader -> loader)
    (Q : unit -> job -> Prop) (E : job -> Prop) :
  (forall j, P j ->
             Q tt {| current := f (current j);
                     history := history j ++ [f (current j)];
                     requests := requests j |}) ->
  triple P (write f) Q E.
Proof. intros H j Hj. exact (H j Hj). Qed.

Lemma triple_call {A} (P : job -> Prop) (m : M A) (Q : A -> job -> Prop)
    (E : job -> Prop) :
  (forall j j', P j -> same_object j j' -> E j' /\ forall a, Q a j') ->
  triple P (call m) Q E.
Proof.
  intros H j Hj. unfold call.
  destruct (m (requests j)) as [r log] eqn:Em.
  destruct (H j {| current := current j; history := history j; requests := log |}
              Hj (conj eq_refl eq_refl)) as [HE HQ].
  destruct r; [apply HQ | exact HE | exact HE].
Qed.

Lemma triple_file (fs_ok : file_op -> bool) (P : job -> Prop) (op : file_op)
    (Q : unit -> job -> Prop) (E : job -> Prop) :
  (forall j, P j -> E j /\ Q tt j) ->
  triple P (file fs_ok op) Q E.
Proof.
  intros H j Hj. unfold file. destruct (H j Hj) as [HE HQ].
  destruct (fs_ok op); assumption.
Qed.

Lemma triple_write_txt (fs_ok : file_op -> bool) (I : job -> Prop)
    (all_articles : list dict) :
  forall i : nat,
    triple I (write_txt fs_ok i all_articles) (fun _ => I) I.
Proof.
  induction all_articles as [|a rest IH]; intros i; cbn [write_txt].
  - apply triple_ret. auto.
  - apply (triple_bind I _ (fun _ => I)).
    + apply triple_file. intros j Hj. split; exact Hj.
    + intros _. apply IH.
Qed.

Ltac keep I := apply (triple_bind _ _ (fun _ => I)); [|intros ?].

(** *** Status: an exception leaves the job unfinished *)

Lemma unfinished_same (j j' : job) :
  same_object j j' -> unfinished j -> unfinished j'.
Proof.
  intros [Hc Hh] [Hs [h Hsync]]. unfold unfinished, synced.
  rewrite Hc, Hh. split; [exact Hs | exists h; exact Hsync].
Qed.

Lemma unfinished_write (f : loader -> loader) (j : job) :
  In (status (f (current j))) pending ->
  unfinished {| current := f (current j);
                history := history j ++ [f (current j)];
                requests := requests j |}.
Proof.
  intros Hs. split; [exact Hs|]. exists (history j). reflexivity.
Qed.

Ltac unfinished_step :=
  first
    [ apply triple_file; intros j Hj; split; exact Hj
    | apply triple_write; intros j Hj; apply unfinished_write;
      first [ exact (proj1 Hj) | cbn; tauto ]
    | apply triple_call; intros j j' Hj Hsame; split;
      [|intros ?]; exact (unfinished_same j j' Hsame Hj)
    | apply triple_write_txt ].

Section Worker.

Variable R : Remote.
Variable fs_ok : file_op -> bool.
Variable fuel : nat.
Variable search_term : string.
Variable max_results : option Z.

Lemma windows_unfinished (ranges : list (datetime * datetime)) :
  forall (all_articles : list dict) (total_fetched : Z),
    triple unfinished
           (windows R fuel search_term max_results ranges all_articles total_fetched)
           (fun _ => unfinished) unfinished.
Proof.
  induction ranges as [|[start_date end_date] rest IH];
    intros all_articles total_fetched; cbn [windows].
  - apply triple_ret. auto.
  - destruct (oztruthy max_results && _); [apply triple_ret; auto|].
    keep unfinished; [unfinished_step|].
    keep unfinished; [unfinished_step|].
    destruct (oztruthy max_results && _); [apply triple_ret; auto | apply IH].
Qed.

Lemma task_unfinished (this_year : Z) :
  triple unfinished
         (task R fs_ok fuel search_term max_results this_year)
         (fun _ j => status (current j) = "Completed"%string /\ synced j)
         unfinished.
Proof.
  unfold task.
  do 6 (keep unfinished; [unfinished_step|]).
  keep unfinished; [apply windows_unfinished|].
  do 9 (keep unfinished; [unfinished_step|]).
  apply triple_write. intros j [_ [h Hh]]. split; [reflexivity|].
  exists (history j). reflexivity.
Qed.

(** *** Progress: written values never go down *)

Lemma monotone_bound (j : job) (n : nat) :
  monotone j -> progress (nth n (history j) (current j)) <= progress (current j).
Proof.
  intros Hm.
  pose proof (Hm n (Nat.max n (List.length (history j))) ltac:(lia)) as H.
  rewrite (nth_overflow (history j) (current j)
                        (n := Nat.max n (List.length (history j)))) in H by lia.
  exact H.
Qed.

Lemma nth_snoc (h : list loader) (c c' : loader) (n : nat) :
  nth n (h ++ [c']) c'
  = if (n <? List.length h)%nat then nth n h c else c'.
Proof.
  destruct (Nat.ltb_spec n (List.length h)) as [Hlt|Hge].
  - rewrite app_nth1 by exact Hlt. apply nth_indep. exact Hlt.
  - rewrite app_nth2 by exact Hge.
    destruct (n - List.length h)%nat as [|[|k]]; reflexivity.
Qed.

Lemma monotone_write (f : loader -> loader) (j : job) :
  monotone j ->
  progress (current j) <= progress (f (current j)) ->
  monotone {| current := f (current j);
              history := history j ++ [f (current j)];
              requests := requests j |}.
Proof.
  intros Hm Hp n m Hnm. cbn [current history].
  rewrite !(nth_snoc (history j) (current j)).
  destruct (Nat.ltb_spec n (List.length (history j))) as [Hn|Hn];
    destruct (Nat.ltb_spec m (List.length (history j))) as [Hm'|Hm'].
  - apply Hm. exact Hnm.
  - pose proof (monotone_bound j n Hm). lia.
  - lia.
  - lia.
Qed.

Lemma monotone_same (j j' : job) :
  same_object j j' -> monotone j -> monotone j'.
Proof.
  intros [Hc Hh] Hm n m Hnm. rewrite Hc, Hh. apply Hm. exact Hnm.
Qed.

Lemma fetched_upto_same (tf : Z) (j j' : job) :
  same_object j j' -> fetched_upto tf j -> fetched_upto tf j'.
Proof.
  intros Hs [Hm Hp]. split; [exact (monotone_same j j' Hs Hm)|].
  destruct Hs as [-> _]. exact Hp.
Qed.

(** A write that leaves [progress] as it is. *)
Lemma fetched_upto_write (tf : Z) (f : loader -> loader) (j : job) :
  (forall l, progress (f l) = progress l) ->
  fetched_upto tf j ->
  fetched_upto tf {| current := f (current j);
                     history := history j ++ [f (current j)];
                     requests := requests j |}.
Proof.
  intros Hf [Hm Hp]. split.
  - apply monotone_write; [exact Hm | rewrite Hf; lia].
  - cbn [current]. rewrite Hf. exact Hp.
Qed.

Lemma fetched_upto_progress (tf tf' : Z) (j : job) :
  tf <= tf' ->
  fetched_upto tf j ->
  fetched_upto tf' {| current := set_progress tf' (current j);
                      history := history j ++ [set_progress tf' (current j)];
                      requests := requests j |}.
Proof.
  intros Hle [Hm Hp]. split.
  - apply monotone_write; [exact Hm | cbn; lia].
  - cbn. lia.
Qed.

Lemma windows_monotone (ranges : list (datetime * datetime)) :
  forall (all_articles : list dict) (total_fetched : Z),
    triple (fetched_upto total_fetched)
           (windows R fuel search_term max_results ranges all_articles total_fetched)
           (fun _ => monotone) monotone.
Proof.
  induction ranges as [|[start_date end_date] rest IH];
    intros all_articles total_fetched; cbn [windows].
  - apply triple_ret. intros j Hj. exact (proj1 Hj).
  - destruct (oztruthy max_results && _);
      [apply triple_ret; intros j Hj; exact (proj1 Hj)|].
    apply (triple_bind _ _ (fun _ => fetched_upto total_fetched)).
    + apply triple_call. intros j j' Hj Hsame.
      pose proof (fetched_upto_same _ j j' Hsame Hj) as H.
      split; [exact (proj1 H) | intros _; exact H].
    + intros articles.
      apply (triple_bind _ _ (fun _ => fetched_upto
               (total_fetched + Z.of_nat (List.length articles)))).
      * apply triple_write. intros j Hj.
        apply (fetched_upto_progress total_fetched); [lia | exact Hj].
      * intros _.
        destruct (oztruthy max_results && _);
          [apply triple_ret; intros j Hj; exact (proj1 Hj) | apply IH].
Qed.

Ltac upto_step :=
  first
    [ apply triple_file; intros j Hj; split; [exact (proj1 Hj) | exact Hj]
    | apply triple_write; intros j Hj; apply fetched_upto_write;
      [intros l; reflexivity | exact Hj]
    | apply triple_call; intros j j' Hj Hsame; split; [|intros ?];
      first [ exact (fetched_upto_same _ j j' Hsame Hj)
            | exact (proj1 (fetched_upto_same _ j j' Hsame Hj)) ] ].

Ltac monotone_step :=
  first
    [ apply triple_file; intros j Hj; split; exact Hj
    | apply triple_write; intros j Hj; apply monotone_write;
      [exact Hj | cbn; lia]
    | apply triple_write_txt ].

Lemma task_monotone (this_year : Z) :
  triple (fetched_upto 0)
         (task R fs_ok fuel search_term max_results this_year)
         (fun _ => monotone) monotone.
Proof.
  unfold task.
  do 3 (keep (fetched_upto 0); [upto_step|]).
  keep (fetched_upto 0);
    [apply triple_write; intros j Hj;
     apply (fetched_upto_progress 0); [lia | exact Hj]|].
  do 2 (keep (fetched_upto 0); [upto_step|]).
  keep monotone; [apply windows_monotone|].
  do 9 (keep monotone; [monotone_step|]).
  monotone_step.
Qed.

(** *** Total: the requested maximum, once written, stays *)

Lemma windows_total (m : Z) (ranges : list (datetime * datetime)) :
  forall (all_articles : list dict) (total_fetched : Z),
    triple (total_is m)
           (windows R fuel search_term max_results ranges all_articles total_fetched)
           (fun _ => total_is m) anything.
Proof.
  induction ranges as [|[start_date end_date] rest IH];
    intros all_articles total_fetched; cbn [windows].
  - apply triple_ret. auto.
  - destruct (oztruthy max_results && _); [apply triple_ret; auto|].
    keep (total_is m).
    + apply triple_call. intros j j' Hj [Hc _]. split; [exact I|].
      intros _. unfold total_is. rewrite Hc. exact Hj.
    + keep (total_is m).
      * apply triple_write. intros j Hj. exact Hj.
      * destruct (oztruthy max_results && _); [apply triple_ret; auto | apply IH].
Qed.

Ltac total_step :=
  first
    [ apply triple_file; intros j Hj; split; [exact I | exact Hj]
    | apply triple_write; intros j Hj; exact Hj
    | apply triple_call; intros j j' Hj Hsame; split; [exact I|];
      intros ?; exact I
    | apply triple_write_txt ].

Lemma write_txt_total (m : Z) (all_articles : list dict) :
  forall i : nat,
    triple (total_is m) (write_txt fs_ok i all_articles)
           (fun _ => total_is m) anything.
Proof.
  induction all_articles as [|a rest IH]; intros i; cbn [write_txt].
  - apply triple_ret. auto.
  - keep (total_is m); [total_step | apply IH].
Qed.


End Worker.

Lemma launch_unfinished : unfinished (launch init).
Proof. split; [left; reflexivity | exists []; reflexivity]. Qed.

Lemma launch_monotone : fetched_upto 0 (launch init).
Proof.
  split; [|cbn; lia]. intros n m _. cbn [launch history current].
  destruct n as [|[|n]], m as [|[|m]]; cbn; lia.
Qed.

(** C3 as stated fails: when the first search is answered with a failing
    status the worker ends on the exception, and the status a poller
    reads stays ["Starting..."]. *)
Lemma failure_counterexample :
  fst (load_articles failing_remote disk_ok 12 "(Brain) AND (glymph*)"
                     (Some 100) 2026 init)
  = Raise HTTPError
  /\ snapshot (current (snd (load_articles failing_remote disk_ok 12
                               "(Brain) AND (glymph*)" (Some 100) 2026 init)))
     = ("Starting..."%string, 0, 0)
  /\ status (current (snd (load_articles failing_remote disk_ok 12
                             "(Brain) AND (glymph*)" (Some 100) 2026 init)))
     <> "Failed"%string.
Proof. repeat split. vm_compute. discriminate. Qed.

(** C3 (amended): for every run of a retrieval job in which an operation
    raises an error, the worker ends there: the job keeps the status it
    had, one of the statuses of an unfinished job and never ["Failed"] or
    ["Completed"], and every later poll reads that status with progress
    and total at their last values. *)
Theorem failure_freezes_status (R : Remote) (fs_ok : file_op -> bool)
    (fuel : nat) (search_term : string) (max_results : option Z)
    (this_year : Z) (e : exn) (j : job) :
  load_articles R fs_ok fuel search_term max_results this_year init
  = (Raise e, j) ->
  In (status (current j)) pending
  /\ status (current j) <> "Failed"%string
  /\ status (current j) <> "Completed"%string
  /\ (forall n, (List.length (history j) - 1 <= n)%nat ->
                get_progress j n = snapshot (current j)).
Proof.
  intros Hrun.
  pose proof (task_unfinished R fs_ok fuel search_term max_results this_year
                              (launch init) launch_unfinished) as H.
  unfold load_articles in Hrun. rewrite Hrun in H.
  destruct H as [Hs [h Hh]].
  split; [exact Hs|].
  split; [|split].
  - intros Heq. rewrite Heq in Hs. cbn in Hs.
    repeat (destruct Hs as [Hs|Hs]; [discriminate|]). exact Hs.
  - intros Heq. rewrite Heq in Hs. cbn in Hs.
    repeat (destruct Hs as [Hs|Hs]; [discriminate|]). exact Hs.
  - intros n Hn. unfold get_progress, snapshot. rewrite Hh in *.
    rewrite length_app in Hn. cbn in Hn.
    destruct (Nat.eq_dec n (List.length h)) as [->|Hne].
    + rewrite app_nth2 by lia. rewrite Nat.sub_diag. reflexivity.
    + rewrite nth_overflow by (rewrite length_app; cbn; lia). reflexivity.
Qed.

Lemma failure_freezes_status_witness :
  In (status (current (snd (load_articles failing_remote disk_ok 12
                              "(Brain) AND (glymph*)" (Some 100) 2026 init))))
     pending.
Proof.
  exact (proj1 (failure_freezes_status failing_remote disk_ok 12
                  "(Brain) AND (glymph*)" (Some 100) 2026 HTTPError _ eq_refl)).
Defined.

(** C5: for every job, whatever the remote service and the file system
    do, a poll made after another reads a progress that is no smaller:
    the values of progress that [get_progress] can return are
    non-decreasing from launch on. *)
Theorem progress_never_decreases (R : Remote) (fs_ok : file_op -> bool)
    (fuel : nat) (search_term : string) (max_results : option Z)
    (this_year : Z) (n m : nat) :
  (n <= m)%nat ->
  progress_of (get_progress
                 (snd (load_articles R fs_ok fuel search_term max_results
                                     this_year init)) n)
  <= progress_of (get_progress
                    (snd (load_articles R fs_ok fuel search_term max_results
                                        this_year init)) m).
Proof.
  intros Hnm.
  pose proof (task_monotone R fs_ok fuel search_term max_results this_year
                            (launch init) launch_monotone) as H.
  unfold load_articles.
  destruct (task R fs_ok fuel search_term max_results this_year (launch init))
    as [[[]| e |] j]; cbn [snd]; exact (H n m Hnm).
Qed.

Lemma progress_never_decreases_witness :
  progress_of (get_progress
                 (snd (load_articles (five_recent "(Brain) AND (glymph*)")
                         disk_ok 12 "(Brain) AND (glymph*)" (Some 100) 2026 init))
                 3)
  <= progress_of (get_progress
                    (snd (load_articles (five_recent "(Brain) AND (glymph*)")
                            disk_ok 12 "(Brain) AND (glymph*)" (Some 100) 2026 init))
                    25).
Proof.
  apply (progress_never_decreases (five_recent "(Brain) AND (glymph*)")
           disk_ok 12 "(Brain) AND (glymph*)" (Some 100) 2026 3 25).
  lia.
Defined.




End JobProps.

(* ================================================================== *)
(** ** Further properties of the code                                  *)
(* ================================================================== *)

Module PagingProps.
Import Py ET CustomPubMed Windows Paging WindowProps.
Local Open Scope Z_scope.

Lemma ztruthy_nonzero (m : Z) : m <> 0 -> ztruthy m = true.
Proof.
  intros H. unfold ztruthy. destruct (Z.eqb_spec m 0); [contradiction | reflexivity].
Qed.

Lemma batch_size_min (m fetched : Z) :
  (if m - fetched <? 1000 then m - fetched else 1000) = Z.min 1000 (m - fetched).
Proof. destruct (Z.ltb_spec (m - fetched) 1000); lia. Qed.

(** The loop of [fetch_articles] with a positive limit, from the [i]-th
    page on (or past the limit): it ends, and what it sends are the next
    pages in order, all below the limit. *)
Lemma fetch_loop_pages (R : Remote) (webenv query_key : option string) (m : Z) :
  responsive R ->
  0 < m ->
  forall (fuel : nat) (articles : list dict) (fetched : Z) (i : nat)
         (log : list request),
    fetched = 1000 * Z.of_nat i \/ m <= fetched ->
    (1 <= fuel)%nat ->
    m - fetched + 1000 <= 1000 * Z.of_nat fuel ->
    exists n : nat,
      snd (fetch_loop R fuel webenv query_key 1000 (Some m) articles fetched log)
      = log ++ map (page_request webenv query_key m) (seq i n)
      /\ fst (fetch_loop R fuel webenv query_key 1000 (Some m) articles fetched log)
         <> Timeout
      /\ (m <= fetched -> n = 0%nat)
      /\ (fetched < m ->
          (1 <= n)%nat /\ 1000 * (Z.of_nat i + Z.of_nat n - 1) < m).
Proof.
  intros [_ Hresp] Hm. induction fuel as [|fuel IH];
    intros articles fetched i log Hf H1 Hfuel; [lia|].
  cbn [fetch_loop]. rewrite (ztruthy_nonzero m) by lia. cbn [andb].
  destruct (Z.geb_spec fetched m) as [Hge|Hlt].
  - exists 0%nat. split; [cbn; rewrite app_nil_r; reflexivity|].
    split; [discriminate|]. split; [reflexivity | lia].
  - destruct Hf as [Hf|Hf]; [|lia].
    rewrite batch_size_min. unfold bind, fetch_page.
    assert (EFetch webenv query_key fetched (Z.min 1000 (m - fetched))
            = page_request webenv query_key m i) as Hreq
      by (unfold page_request; rewrite Hf; reflexivity).
    rewrite Hreq.
    pose proof (Hresp (List.length log) webenv query_key fetched
                      (Z.min 1000 (m - fetched))) as Hans.
    destruct (efetch R (List.length log) webenv query_key fetched
                     (Z.min 1000 (m - fetched))) as [root| e |].
    + destruct (parse_page root) as [|a batch].
      * exists 1%nat. split; [reflexivity|].
        split; [discriminate|]. split; lia.
      * destruct (IH (articles ++ a :: batch) (fetched + Z.min 1000 (m - fetched))
                     (S i) (log ++ [page_request webenv query_key m i]))
          as [n [Hlog [Hout [Hn0 Hn]]]].
        -- destruct (Z.min_spec 1000 (m - fetched)) as [[_ ->]|[_ ->]]; lia.
        -- destruct fuel; lia.
        -- lia.
        -- exists (S n). split; [|split].
           ++ rewrite Hlog, <- app_assoc. reflexivity.
           ++ exact Hout.
           ++ split; [lia|]. intros _. split; [lia|].
              destruct (Z.min_spec 1000 (m - fetched)) as [[Hc Hmin]|[Hc Hmin]];
                rewrite Hmin in *.
              ** destruct (Z.lt_ge_cases (fetched + 1000) m) as [Hmore|Hdone].
                 --- destruct (Hn Hmore) as [_ Hb]. lia.
                 --- rewrite (Hn0 Hdone). lia.
              ** rewrite (Hn0 ltac:(lia)). lia.
    + exists 1%nat. split; [reflexivity|].
      split; [discriminate|]. split; lia.
    + contradiction.
Qed.

(** X1: with a positive [max_results], [fetch_articles] ends whatever the
    remote answers, and the requests it sends are the pages
    0, 1000, 2000, ... in order, at least one and all below the limit,
    whatever number of records each answer held. *)
Theorem fetch_articles_pages (R : Remote) (fuel : nat)
    (webenv query_key : option string) (m : Z) (log : list request) :
  responsive R ->
  0 < m ->
  m + 1000 <= 1000 * Z.of_nat fuel ->
  exists n : nat,
    (1 <= n)%nat
    /\ 1000 * (Z.of_nat n - 1) < m
    /\ snd (fetch_articles R fuel webenv query_key 1000 (Some m) log)
       = log ++ page_requests webenv query_key m n
    /\ fst (fetch_articles R fuel webenv query_key 1000 (Some m) log) <> Timeout.
Proof.
  intros Hresp Hm Hfuel. unfold fetch_articles, page_requests.
  destruct (fetch_loop_pages R webenv query_key m Hresp Hm fuel [] 0 0%nat log
              ltac:(left; lia) ltac:(lia) ltac:(lia))
    as [n [Hlog [Hout [_ Hn]]]].
  destruct (Hn Hm) as [H1 Hb].
  exists n. repeat split; first [assumption | lia].
Qed.

Lemma fetch_articles_pages_witness :
  exists n : nat,
    (1 <= n)%nat
    /\ 1000 * (Z.of_nat n - 1) < 2500
    /\ snd (fetch_articles (stock_remote 2500) 4 (Some "MCID_1"%string)
                           (Some "1"%string) 1000 (Some 2500) [])
       = [] ++ page_requests (Some "MCID_1"%string) (Some "1"%string) 2500 n
    /\ fst (fetch_articles (stock_remote 2500) 4 (Some "MCID_1"%string)
                           (Some "1"%string) 1000 (Some 2500) [])
       <> Timeout.
Proof.
  apply (fetch_articles_pages (stock_remote 2500) 4).
  - split; intros; discriminate.
  - lia.
  - lia.
Defined.

Lemma min3_nonzero (remaining : budget) (total_available : Z) :
  nonzero remaining -> total_available <> 0 ->
  min3 remaining total_available <> 0.
Proof. destruct remaining; simpl; lia. Qed.

Lemma fetch_loop_negative (R : Remote) (fuel : nat)
    (webenv query_key : option string) (m : Z) (log : list request) :
  m < 0 ->
  fetch_loop R (S fuel) webenv query_key 1000 (Some m) [] 0 log = (Ret [], log).
Proof.
  intros Hm. cbn [fetch_loop]. rewrite (ztruthy_nonzero m) by lia.
  destruct (Z.geb_spec 0 m); [reflexivity | lia].
Qed.

Lemma fetches_app (l1 l2 : list request) :
  fetches (l1 ++ l2) = fetches l1 ++ fetches l2.
Proof. apply filter_app. Qed.

Lemma searches_app (l1 l2 : list request) :
  searches (l1 ++ l2) = searches l1 ++ searches l2.
Proof. apply filter_app. Qed.

Lemma page_requests_fetches (webenv query_key : option string) (m : Z) (n : nat) :
  fetches (page_requests webenv query_key m n)
  = page_requests webenv query_key m n
  /\ searches (page_requests webenv query_key m n) = [].
Proof.
  unfold page_requests, fetches, searches.
  induction (seq 0 n) as [|i l [IH1 IH2]]; [split; reflexivity|].
  cbn. rewrite IH1, IH2. split; reflexivity.
Qed.

Lemma recursive_load_answers (R : Remote) (fuel : nat) (query : string)
    (start end_ : Calendar.datetime) (remaining : budget) (log : list request) :
  responsive R ->
  nonzero remaining ->
  (11 <= fuel)%nat ->
  fst (recursive_load R fuel query start end_ remaining log) <> Timeout.
Proof.
  intros Hresp Hnz Hfuel. destruct fuel as [|fuel]; [lia|].
  rewrite recursive_load_first_branch.
  unfold load_without_split, bind, search_with_history.
  pose proof (proj1 Hresp (List.length log) (full_query query start end_)) as Hans.
  destruct (esearch R (List.length log) (full_query query start end_))
    as [sr| e |]; [|discriminate|contradiction].
  destruct (Z.eqb_spec (count sr) 0) as [H0|H0]; [discriminate|].
  pose proof (min3_nonzero remaining (count sr) Hnz H0) as Hm.
  pose proof (min3_le_cap remaining (count sr)) as Hcap.
  apply Z.leb_le in Hcap.
  destruct (Z.lt_ge_cases (min3 remaining (count sr)) 0) as [Hneg|Hpos].
  - unfold fetch_articles. rewrite fetch_loop_negative by exact Hneg. discriminate.
  - unfold fetch_articles.
    destruct (fetch_loop_pages R (WebEnv sr) (QueryKey sr)
                (min3 remaining (count sr)) Hresp ltac:(lia) (S fuel) [] 0 0%nat
                (log ++ [ESearch (full_query query start end_)])
                ltac:(left; lia) ltac:(lia) ltac:(lia))
      as [n [_ [Hout _]]].
    exact Hout.
Qed.

(** X2: for every budget other than zero, [recursive_load] ends whatever the
    remote answers, having sent the search of the window and at most ten
    fetch requests. *)
Theorem window_load_ends (R : Remote) (fuel : nat) (query : string)
    (start end_ : Calendar.datetime) (remaining : budget) (log : list request) :
  responsive R ->
  nonzero remaining ->
  (11 <= fuel)%nat ->
  fst (recursive_load R fuel query start end_ remaining log) <> Timeout
  /\ searches (snd (recursive_load R fuel query start end_ remaining log))
     = searches log ++ [ESearch (full_query query start end_)]
  /\ (List.length (fetches (snd (recursive_load R fuel query start end_
                                                remaining log)))
      <= List.length (fetches log) + 10)%nat.
Proof.
  intros Hresp Hnz Hfuel. destruct fuel as [|fuel]; [lia|].
  rewrite recursive_load_first_branch.
  unfold load_without_split, bind, search_with_history.
  pose proof (proj1 Hresp (List.length log) (full_query query start end_)) as Hans.
  destruct (esearch R (List.length log) (full_query query start end_))
    as [sr| e |]; [| |contradiction].
  - destruct (Z.eqb_spec (count sr) 0) as [H0|H0].
    + cbn [fst snd ret]. rewrite searches_app, fetches_app. cbn.
      rewrite app_nil_r. repeat split; [discriminate | lia].
    + pose proof (min3_nonzero remaining (count sr) Hnz H0) as Hm.
      pose proof (min3_le_cap remaining (count sr)) as Hcap.
      apply Z.leb_le in Hcap.
      destruct (Z.lt_ge_cases (min3 remaining (count sr)) 0) as [Hneg|Hpos].
      * unfold fetch_articles. rewrite fetch_loop_negative by exact Hneg.
        cbn [fst snd]. rewrite searches_app, fetches_app. cbn.
        rewrite app_nil_r. repeat split; [discriminate | lia].
      * destruct (fetch_articles_pages R (S fuel) (WebEnv sr) (QueryKey sr)
                    (min3 remaining (count sr))
                    (log ++ [ESearch (full_query query start end_)])
                    Hresp ltac:(lia) ltac:(lia))
          as [n [Hn1 [Hn [Hlog Hout]]]].
        destruct (page_requests_fetches (WebEnv sr) (QueryKey sr)
                    (min3 remaining (count sr)) n) as [Hf Hs].
        rewrite Hlog. split; [exact Hout|].
        rewrite !searches_app, !fetches_app, Hf, Hs. cbn.
        rewrite !app_nil_r. split; [reflexivity|].
        rewrite length_app. unfold page_requests.
        rewrite length_map, length_seq. lia.
  - cbn [fst snd]. rewrite searches_app, fetches_app. cbn.
    rewrite app_nil_r. repeat split; [discriminate | lia].
Qed.


Lemma window_load_ends_witness :
  fst (recursive_load (stock_remote 20000) 11 "glymph*" window_start window_end
                      Inf [])
  <> Timeout
  /\ (List.length (fetches (snd (recursive_load (stock_remote 20000) 11 "glymph*"
                                   window_start window_end Inf [])))
      <= 0 + 10)%nat.
Proof.
  destruct (window_load_ends (stock_remote 20000) 11 "glymph*" window_start
              window_end Inf []) as [H1 [_ H3]].
  - split; intros; discriminate.
  - exact I.
  - lia.
  - split; [exact H1 | exact H3].
Defined.

(** What an honest remote lets the loop collect: no more than the limit
    leaves room for. *)
Lemma fetch_loop_honest (R : Remote) (webenv query_key : option string) (m : Z) :
  honest R ->
  0 < m ->
  forall (fuel : nat) (articles : list dict) (fetched : Z) (log : list request)
         (result : list dict) (log' : list request),
    fetch_loop R fuel webenv query_key 1000 (Some m) articles fetched log
    = (Ret result, log') ->
    Z.of_nat (List.length result)
    <= Z.of_nat (List.length articles) + Z.max 0 (m - fetched).
Proof.
  intros Hhon Hm. induction fuel as [|fuel IH];
    intros articles fetched log result log' Hrun; [discriminate|].
  cbn [fetch_loop] in Hrun. rewrite (ztruthy_nonzero m) in Hrun by lia.
  cbn [andb] in Hrun.
  destruct (Z.geb_spec fetched m) as [Hge|Hlt].
  - injection Hrun as <- _. lia.
  - rewrite batch_size_min in Hrun. unfold bind, fetch_page in Hrun.
    pose proof (Hhon (List.length log) webenv query_key fetched
                     (Z.min 1000 (m - fetched))) as Hpage.
    destruct (efetch R (List.length log) webenv query_key fetched
                     (Z.min 1000 (m - fetched))) as [root| e |];
      [|discriminate|discriminate].
    specialize (Hpage root ltac:(lia) eq_refl).
    destruct (parse_page root) as [|a batch] eqn:Hbatch.
    + injection Hrun as <- _. lia.
    + apply IH in Hrun. rewrite length_app, Nat2Z.inj_add in Hrun. lia.
Qed.

Lemma recursive_load_fetch_count (R : Remote) (fuel : nat) (query : string)
    (start end_ : Calendar.datetime) (remaining : budget) (log : list request)
    (articles : list dict) (log' : list request) :
  honest R ->
  nonzero remaining ->
  recursive_load R fuel query start end_ remaining log = (Ret articles, log') ->
  exists sr : SearchResults,
    esearch R (List.length log) (full_query query start end_) = Ret sr
    /\ Z.of_nat (List.length articles) <= Z.max 0 (min3 remaining (count sr)).
Proof.
  intros Hhon Hnz Hrun. destruct fuel as [|fuel]; [discriminate|].
  rewrite recursive_load_first_branch in Hrun.
  unfold load_without_split, bind, search_with_history in Hrun.
  destruct (esearch R (List.length log) (full_query query start end_))
    as [sr| e |]; [|discriminate|discriminate].
  exists sr. split; [reflexivity|].
  destruct (Z.eqb_spec (count sr) 0) as [H0|H0].
  - injection Hrun as <- _. cbn. lia.
  - pose proof (min3_nonzero remaining (count sr) Hnz H0) as Hm.
    destruct (Z.lt_ge_cases (min3 remaining (count sr)) 0) as [Hneg|Hnn].
    + unfold fetch_articles in Hrun.
      rewrite fetch_loop_negative in Hrun by exact Hneg.
      injection Hrun as <- _. cbn. lia.
    + unfold fetch_articles in Hrun.
      assert (0 < min3 remaining (count sr)) as Hpos by lia.
      pose proof (fetch_loop_honest R _ _ _ Hhon Hpos _ _ _ _ _ _ Hrun) as H.
      cbn in H. lia.
Qed.

(** X3: with a positive budget and a remote that never answers a page with
    more records than asked, [recursive_load] returns at most 9999
    records and at most the budget. *)
Theorem window_load_within_budget (R : Remote) (fuel : nat) (query : string)
    (start end_ : Calendar.datetime) (remaining : budget) (log : list request)
    (articles : list dict) (log' : list request) :
  honest R ->
  positive remaining ->
  recursive_load R fuel query start end_ remaining log = (Ret articles, log') ->
  Z.of_nat (List.length articles) <= 9999
  /\ (forall r, remaining = Fin r -> Z.of_nat (List.length articles) <= r).
Proof.
  intros Hhon Hpos Hrun.
  assert (nonzero remaining) as Hnz by (destruct remaining; cbn in *; lia).
  destruct (recursive_load_fetch_count R fuel query start end_ remaining log
              articles log' Hhon Hnz Hrun) as [sr [_ Hlen]].
  split.
  - destruct remaining; unfold min3 in Hlen; lia.
  - intros r ->. unfold min3 in Hlen. cbn in Hpos. lia.
Qed.

Lemma stock_remote_honest (n : Z) : honest (stock_remote n).
Proof.
  intros k w q retstart retmax root Hpos Hroot. cbn in Hroot.
  injection Hroot as <-. rewrite stock_page_records. lia.
Qed.

Lemma window_load_within_budget_witness :
  exists articles log',
    recursive_load (stock_remote 5) 11 "glymph*" window_start window_end
                   (Fin 3) []
    = (Ret articles, log')
    /\ Z.of_nat (List.length articles) <= 3.
Proof.
  eexists. eexists. split; [vm_compute; reflexivity|].
  refine (proj2 (window_load_within_budget (stock_remote 5) 11 "glymph*"
                   window_start window_end (Fin 3) [] _ _
                   (stock_remote_honest 5) _ _) 3 eq_refl).
  - cbn. lia.
  - vm_compute. reflexivity.
Defined.

Lemma fetch_loop_zero (R : Remote) (webenv query_key : option string)
    (batch_size : Z) :
  forall (fuel : nat) (articles : list dict) (fetched : Z) (log : list request),
    fetch_loop R fuel webenv query_key batch_size (Some 0) articles fetched log
    = fetch_loop R fuel webenv query_key batch_size None articles fetched log.
Proof.
  induction fuel as [|fuel IH]; intros articles fetched log; [reflexivity|].
  cbn [fetch_loop ztruthy Z.eqb negb andb]. unfold bind.
  destruct (fetch_page R webenv query_key fetched batch_size log)
    as [[root| e |] log1]; try reflexivity.
  destruct (parse_page root); [reflexivity | apply IH].
Qed.

(** X4: a limit of zero is no limit: [load_articles_by_date] with
    [max_results=0] on a window that holds records fetches page after page
    until a page comes back empty, as it does with no limit at all. *)
Theorem zero_budget_is_no_limit (R : Remote) (fuel : nat) (query : string)
    (start end_ : Calendar.datetime) (log : list request)
    (search_results : SearchResults) :
  esearch R (List.length log) (full_query query start end_) = Ret search_results ->
  0 < count search_results ->
  load_articles_by_date R (S fuel) query start end_ (Some 0) log
  = fetch_articles R (S fuel) (WebEnv search_results) (QueryKey search_results)
                   1000 None (log ++ [ESearch (full_query query start end_)]).
Proof.
  intros Hs Hc. unfold load_articles_by_date.
  rewrite recursive_load_first_branch.
  unfold load_without_split, bind, search_with_history. rewrite Hs.
  destruct (Z.eqb_spec (count search_results) 0) as [H0|H0]; [lia|].
  replace (min3 (Fin 0) (count search_results)) with 0 by (cbn; lia).
  unfold fetch_articles. apply fetch_loop_zero.
Qed.

Lemma zero_budget_is_no_limit_witness :
  load_articles_by_date (stock_remote 5) 3 "glymph*" window_start window_end
                        (Some 0) []
  = fetch_articles (stock_remote 5) 3 (Some "MCID_1"%string) (Some "1"%string)
                   1000 None [ESearch (full_query "glymph*" window_start window_end)]
  /\ returned (fst (load_articles_by_date (stock_remote 5) 3 "glymph*"
                      window_start window_end (Some 0) []))
     = Some 5.
Proof.
  split.
  - apply (zero_budget_is_no_limit (stock_remote 5) 2 "glymph*" window_start
             window_end []
             {| count := 5; WebEnv := Some "MCID_1"%string;
                QueryKey := Some "1"%string |}).
    + reflexivity.
    + cbn. lia.
  - vm_compute. reflexivity.
Defined.

(** X5: a window whose search counts records but whose first page holds
    none gives the empty list after one search and one fetch. *)
Theorem empty_first_page (R : Remote) (fuel : nat) (query : string)
    (start end_ : Calendar.datetime) (remaining : budget) (log : list request)
    (search_results : SearchResults) (root : Element) :
  esearch R (List.length log) (full_query query start end_) = Ret search_results ->
  0 < count search_results ->
  positive remaining ->
  efetch R (S (List.length log)) (WebEnv search_results) (QueryKey search_results)
         0 (Z.min 1000 (min3 remaining (count search_results)))
  = Ret root ->
  parse_page root = [] ->
  recursive_load R (S fuel) query start end_ remaining log
  = (Ret [],
     log ++ [ESearch (full_query query start end_);
             EFetch (WebEnv search_results) (QueryKey search_results) 0
                    (Z.min 1000 (min3 remaining (count search_results)))]).
Proof.
  intros Hs Hc Hpos Hf Hempty.
  rewrite recursive_load_first_branch.
  unfold load_without_split, bind, search_with_history. rewrite Hs.
  destruct (Z.eqb_spec (count search_results) 0) as [H0|H0]; [lia|].
  assert (0 < min3 remaining (count search_results)) as Hm
    by (destruct remaining; unfold min3, positive in *; lia).
  unfold fetch_articles. cbn [fetch_loop].
  rewrite (ztruthy_nonzero (min3 remaining (count search_results))) by lia.
  cbn [andb].
  destruct (Z.geb_spec 0 (min3 remaining (count search_results))); [lia|].
  rewrite batch_size_min, Z.sub_0_r. unfold bind, fetch_page.
  rewrite length_app. cbn [List.length]. rewrite Nat.add_1_r, Hf, Hempty.
  unfold ret. rewrite <- app_assoc. reflexivity.
Qed.

Lemma empty_first_page_witness :
  recursive_load (hollow_remote 7) 1 "glymph*" window_start window_end (Fin 100) []
  = (Ret [],
     [ESearch (full_query "glymph*" window_start window_end);
      EFetch (Some "MCID_1"%string) (Some "1"%string) 0 7]).
Proof.
  apply (empty_first_page (hollow_remote 7) 0 "glymph*" window_start window_end
           (Fin 100) []
           {| count := 7; WebEnv := Some "MCID_1"%string;
              QueryKey := Some "1"%string |}
           (Elem "PubmedArticleSet" [] None [] None)).
  - reflexivity.
  - cbn. lia.
  - cbn. lia.
  - reflexivity.
  - reflexivity.
Defined.

End PagingProps.

Module RecordProps.
Import Text ET Py Normalizer Spec Records DictFacts NormalizerFacts AbstractProps.
Local Open Scope string_scope.

Lemma get_update_some (k : string) (other : dict) :
  forall d : dict, present k d -> present k (update d other).
Proof.
  unfold update. induction other as [|[k0 v0] other IH]; intros d H; [exact H|].
  cbn [fold_left fst snd]. apply IH. unfold present. rewrite get_set.
  destruct (String.eqb k0 k); [eexists; reflexivity | exact H].
Qed.

Lemma present_set (k k' : string) (v : value) (d : dict) :
  present k d -> present k (set k' v d).
Proof.
  intros H. unfold present. rewrite get_set.
  destruct (String.eqb k' k); [eexists; reflexivity | exact H].
Qed.

Lemma article_key_present (e : Element) (k : string) :
  In k article_keys -> present k (parse_pubmed_article e).
Proof.
  intros Hk. unfold parse_pubmed_article.
  assert (forall d, present k d ->
                    present k (match sections_of e with
                               | [] => d
                               | _ => update d (sections_of e)
                               end)) as Hupd.
  { intros d Hd. destruct (sections_of e) eqn:E; [exact Hd|].
    rewrite <- E. apply get_update_some. exact Hd. }
  cbn in Hk.
  destruct Hk as [<-|[<-|[<-|[<-|[<-|[<-|[<-|[<-|[]]]]]]]]];
    try (apply present_set, Hupd; unfold present; rewrite !get_set;
         cbn [String.eqb Ascii.eqb Bool.eqb]; eexists; reflexivity).
  unfold present. rewrite get_set_same. eexists; reflexivity.
Qed.

Lemma book_key_present (e : Element) (k : string) :
  In k book_keys -> present k (parse_pubmed_book_article e).
Proof.
  intros Hk. unfold parse_pubmed_book_article. cbn in Hk.
  destruct Hk as [<-|[<-|[<-|[<-|[<-|[<-|[<-|[]]]]]]]];
    unfold present; rewrite !get_set; cbn [String.eqb Ascii.eqb Bool.eqb];
    eexists; reflexivity.
Qed.

(** X6: every record the normalizer returns, article or book, carries each of
    the keys of its variant, whatever the element holds; the book record
    carries these keys only, in this order. *)
Theorem record_keys_present (e : Element) :
  (forall k, In k article_keys -> present k (parse_pubmed_article e))
  /\ (forall k, In k book_keys -> present k (parse_pubmed_book_article e))
  /\ map fst (parse_pubmed_book_article e) = book_keys.
Proof.
  split; [|split].
  - intros k. apply article_key_present.
  - intros k. apply book_key_present.
  - reflexivity.
Qed.

Lemma record_keys_present_witness :
  present "Journal" (parse_pubmed_article Examples.pmid_label_article)
  /\ present "Publisher" (parse_pubmed_book_article Examples.plain_book).
Proof.
  destruct (record_keys_present Examples.pmid_label_article) as [Ha _].
  destruct (record_keys_present Examples.plain_book) as [_ [Hb _]].
  split.
  - apply Ha. cbn. tauto.
  - apply Hb. cbn. tauto.
Defined.

(** *** Labelled sections as fields *)

(** X7: a labelled abstract section with text becomes the field of its
    label, the last such section winning, also when the label is the name
    of a standard field and also when the section was left out of the
    abstract as a duplicate; the one exception is [Copyright], which
    always holds the copyright text. *)
Theorem last_label_wins (e : Element) :
  (forall (k : string) (s : Element),
      String.eqb "Copyright" k = false ->
      last_labelled k (field_sections e) = Some s ->
      get k (parse_pubmed_article e) = Some (VStr (inner_text s)))
  /\ get "Copyright" (parse_pubmed_article e)
     = Some (VStr (text_or_unknown (find_desc "CopyrightInformation" e))).
Proof.
  split.
  - intros k s Hc Hlast. destruct (article_field e k Hc) as [d [-> _]].
    rewrite Hlast. reflexivity.
  - unfold parse_pubmed_article. apply get_set_same.
Qed.

Lemma last_label_wins_witness :
  get "RESULTS" (parse_pubmed_article relabelled_article) = Some (VStr "second")
  /\ get "CONCLUSIONS" (parse_pubmed_article relabelled_article)
     = Some (VStr "first")
  /\ abstract_of relabelled_article = "RESULTS: first" ++ nl ++ "RESULTS: second".
Proof.
  destruct (last_label_wins relabelled_article) as [H _].
  split; [|split].
  - exact (H "RESULTS" (Examples.section (Some "RESULTS") "second")
             eq_refl eq_refl).
  - exact (H "CONCLUSIONS" (Examples.section (Some "CONCLUSIONS") "first")
             eq_refl eq_refl).
  - reflexivity.
Defined.

(** *** The publication date is never empty *)

Lemma truthy_append (a b : string) : truthy a = true -> truthy (a ++ b) = true.
Proof. destruct a; [discriminate | reflexivity]. Qed.

Lemma article_pub_date_truthy (year month day : option string) :
  truthy (article_pub_date year month day) = true.
Proof.
  unfold article_pub_date.
  destruct year as [y|]; cbn [otruthy or_empty andb]; [|reflexivity].
  destruct (truthy y) eqn:Ty; cbn [andb]; [|reflexivity].
  destruct (otruthy month && otruthy day);
    [destruct (_convert_month_to_number _); apply truthy_append; exact Ty|].
  destruct (otruthy month);
    [destruct (_convert_month_to_number _); apply truthy_append; exact Ty|].
  exact Ty.
Qed.

Lemma book_pub_date_truthy (year month day : option string) :
  truthy (book_pub_date year month day) = true.
Proof.
  unfold book_pub_date.
  destruct year as [y|]; cbn [otruthy or_empty andb]; [|reflexivity].
  destruct (truthy y) eqn:Ty; cbn [andb]; [|reflexivity].
  destruct (otruthy month && otruthy day); [apply truthy_append; exact Ty|].
  destruct (otruthy month); [apply truthy_append; exact Ty | exact Ty].
Qed.

Lemma last_labelled_labelled (k : string) (secs : list Element) (s : Element) :
  last_labelled k secs = Some s -> labelled k s = true.
Proof.
  induction secs as [|s0 secs IH]; [discriminate|].
  cbn [last_labelled]. destruct (last_labelled k secs) as [s'|].
  - intros [= <-]. apply IH. reflexivity.
  - destruct (labelled k s0) eqn:E; [intros [= <-]; exact E | discriminate].
Qed.

(** X8: the [PublicationDate] of every record, article or book, is a
    non-empty string: a date built on the year, a bare year, the text of
    a section labelled ["PublicationDate"], or ["Unknown"]. *)
Theorem publication_date_never_empty (e : Element) :
  (exists s, get "PublicationDate" (parse_pubmed_article e) = Some (VStr s)
             /\ truthy s = true)
  /\ (exists s, get "PublicationDate" (parse_pubmed_book_article e) = Some (VStr s)
                /\ truthy s = true)
  /\ (find_desc "PubDate" e = None ->
      get "PublicationDate" (parse_pubmed_book_article e) = Some (VStr "Unknown")).
Proof.
  split; [|split].
  - destruct (article_field e "PublicationDate" eq_refl) as [d [-> Hp]].
    destruct (last_labelled "PublicationDate" (field_sections e)) as [s|] eqn:E.
    + exists (inner_text s). split; [reflexivity|].
      apply last_labelled_labelled in E. unfold labelled in E.
      destruct (ET.get "Label" s); [|discriminate].
      apply andb_prop in E. exact (proj2 E).
    + exists (publication_date_article e). split; [exact Hp|].
      unfold publication_date_article.
      destruct (find_desc "PubDate" e); [apply article_pub_date_truthy | reflexivity].
  - unfold parse_pubmed_book_article. rewrite !get_set.
    cbn [String.eqb Ascii.eqb Bool.eqb]. eexists. split; [reflexivity|].
    destruct (find_desc "PubDate" e); [apply book_pub_date_truthy | reflexivity].
  - intros H. unfold parse_pubmed_book_article. rewrite !get_set, H. reflexivity.
Qed.

Lemma publication_date_never_empty_witness :
  get "PublicationDate" (parse_pubmed_book_article Examples.plain_book)
  = Some (VStr "Unknown").
Proof.
  exact (proj2 (proj2 (publication_date_never_empty Examples.plain_book)) eq_refl).
Defined.

(** *** Month names *)

Lemma index_of_nth (x : string) (l : list string) :
  NoDup l ->
  forall (k i : nat), nth_error l k = Some x -> index_of x l i = Some (i + k)%nat.
Proof.
  intros Hnd. induction Hnd as [|y l Hnotin Hnd IH]; intros k i Hk.
  - destruct k; discriminate.
  - cbn [index_of]. destruct k as [|k]; cbn in Hk.
    + injection Hk as ->. rewrite String.eqb_refl. f_equal. lia.
    + destruct (String.eqb_spec y x) as [->|Hne].
      * exfalso. apply Hnotin. eapply nth_error_In. exact Hk.
      * rewrite (IH k (S i) Hk). f_equal. lia.
Qed.

Lemma a_month_nodup : NoDup a_month.
Proof.
  unfold a_month. repeat constructor; cbn; intuition discriminate.
Qed.

(** X9: the conversion of a month looks at its first three characters only
    and not at their case: whenever they spell the [k]-th abbreviated
    month name, the result is the two-digit number of that month. *)
Theorem month_name_any_case (month_str : string) (k : nat) :
  nth_error a_month k = Some (lower (prefix_slice 3 month_str)) ->
  _convert_month_to_number month_str = Ret (fmt02 (S k))
  /\ String.length (fmt02 (S k)) = 2.
Proof.
  intros H. unfold _convert_month_to_number, strptime_b.
  rewrite (index_of_nth _ _ a_month_nodup k 1 H). cbn [Nat.add].
  split; [reflexivity|].
  assert (k < 12)%nat as Hk
    by (apply (proj1 (nth_error_Some a_month k)); rewrite H; discriminate).
  do 12 (destruct k as [|k]; [reflexivity|]). lia.
Qed.

Lemma month_name_any_case_witness :
  _convert_month_to_number "SEPTEMBER" = Ret "09"
  /\ _convert_month_to_number "sept." = Ret "09".
Proof.
  split.
  - exact (proj1 (month_name_any_case "SEPTEMBER" 8 eq_refl)).
  - exact (proj1 (month_name_any_case "sept." 8 eq_refl)).
Defined.

Lemma lower_ascii_not_letter (c : ascii) :
  is_letter c = false -> is_letter (lower_ascii c) = false.
Proof.
  destruct c as [[] [] [] [] [] [] [] []]; cbn; congruence.
Qed.

Lemma eqb_leading_letter (c : ascii) (x data : string) :
  is_letter c = true ->
  no_leading_letter data = true ->
  String.eqb (String c x) data = false.
Proof.
  intros Hc Hd. destruct data as [|c' r]; [reflexivity|].
  cbn [String.eqb]. destruct (Ascii.eqb_spec c c') as [<-|Hne]; [|reflexivity].
  cbn in Hd. rewrite Hc in Hd. discriminate.
Qed.

Lemma lower_prefix_no_letter (month_str : string) :
  no_leading_letter month_str = true ->
  no_leading_letter (lower (prefix_slice 3 month_str)) = true.
Proof.
  destruct month_str as [|c r]; [reflexivity|].
  cbn. intros H. apply negb_true_iff in H. apply negb_true_iff.
  apply lower_ascii_not_letter. exact H.
Qed.

Lemma no_letter_unparsable (month_str : string) :
  no_leading_letter month_str = true ->
  _convert_month_to_number month_str = Ret month_str.
Proof.
  intros H. apply lower_prefix_no_letter in H.
  unfold _convert_month_to_number, strptime_b, a_month, index_of.
  rewrite !eqb_leading_letter by (reflexivity || exact H). reflexivity.
Qed.

(** X10: a month that does not start with a letter, a number in particular, is
    passed through as it is, with no padding: year, month and day all
    present give year, the month unchanged and the day padded to two
    characters. *)
Theorem numeric_month_unchanged (e pd : Element) (y m d : string) :
  find_desc "PubDate" e = Some pd ->
  findtext_child "Year" pd = Some y ->
  findtext_child "Month" pd = Some m ->
  findtext_child "Day" pd = Some d ->
  truthy y = true -> truthy m = true -> truthy d = true ->
  no_leading_letter m = true ->
  _convert_month_to_number m = Ret m
  /\ publication_date_article e = y ++ "-" ++ m ++ "-" ++ zfill 2 d.
Proof.
  intros Hpd Hy Hm Hd Ty Tm Td Hnum.
  pose proof (no_letter_unparsable m Hnum) as Hconv.
  split; [exact Hconv|].
  unfold publication_date_article. rewrite Hpd, Hy, Hm, Hd.
  unfold article_pub_date. cbn [otruthy or_empty]. rewrite Ty, Tm, Td, Hconv.
  reflexivity.
Qed.

Lemma numeric_month_unchanged_witness :
  publication_date_article numeric_month_article = "2020-7-05".
Proof.
  exact (proj2 (numeric_month_unchanged numeric_month_article
                  (Examples.node "PubDate" (Examples.pub_date "2020" "7" "5"))
                  "2020" "7" "5"
                  eq_refl eq_refl eq_refl eq_refl eq_refl eq_refl eq_refl eq_refl)).
Defined.

(** *** Stripped text *)

Lemma lstrip_idem (s : string) : lstrip (lstrip s) = lstrip s.
Proof.
  induction s as [|c r IH]; [reflexivity|].
  cbn [lstrip]. destruct (isspace c) eqn:E; [exact IH|].
  cbn [lstrip]. rewrite E. reflexivity.
Qed.

Lemma strip_stripped (s : string) : stripped (strip s).
Proof.
  unfold stripped. unfold strip at 1. rewrite rstrip_strip.
  unfold strip. apply lstrip_idem.
Qed.

Lemma text_or_unknown_stripped (o : option Element) :
  stripped (text_or_unknown o).
Proof.
  unfold text_or_unknown. destruct o as [x|]; [|reflexivity].
  destruct (text x) as [t|]; [|reflexivity].
  destruct (truthy t); [apply strip_stripped | reflexivity].
Qed.

Lemma abstract_of_stripped (e : Element) : stripped (abstract_of e).
Proof.
  unfold abstract_of.
  destruct (truthy _); [apply strip_stripped | reflexivity].
Qed.

Lemma parse_pubmed_article_fields (e : Element) :
  parse_pubmed_article e
  = set "Copyright"
        (VStr (text_or_unknown (find_desc "CopyrightInformation" e)))
        (update (standard_fields e) (sections_of e)).
Proof.
  unfold parse_pubmed_article, standard_fields.
  destruct (sections_of e) eqn:E; [rewrite update_nil|]; reflexivity.
Qed.

Lemma article_field_value (e : Element) (k : string) :
  String.eqb "Copyright" k = false ->
  get k (parse_pubmed_article e)
  = match last_labelled k (field_sections e) with
    | Some s => Some (VStr (inner_text s))
    | None => get k (standard_fields e)
    end.
Proof.
  intros Hc. rewrite parse_pubmed_article_fields.
  rewrite get_set_other by exact Hc.
  rewrite get_update by (apply sections_nodup; constructor).
  unfold sections_of. rewrite sections_get. unfold field_sections.
  destruct (last_labelled k _); reflexivity.
Qed.

(** X11: the text the article normalizer stores under [Title], [Abstract],
    [Journal] and [Copyright], and every keyword, has no white space at
    either end, whichever element or labelled section it comes from. *)
Theorem stored_text_is_stripped (e : Element) :
  (forall (k s : string),
      In k stripped_keys ->
      get k (parse_pubmed_article e) = Some (VStr s) ->
      stripped s)
  /\ Forall stripped (keywords_of e).
Proof.
  split.
  - intros k s Hk Hget.
    destruct (String.eqb "Copyright" k) eqn:Hc.
    + apply String.eqb_eq in Hc; subst k.
      unfold parse_pubmed_article in Hget. rewrite get_set_same in Hget.
      injection Hget as <-. apply text_or_unknown_stripped.
    + rewrite (article_field_value e k Hc) in Hget.
      destruct (last_labelled k (field_sections e)) as [sec|].
      * injection Hget as <-. apply strip_stripped.
      * unfold standard_fields in Hget. rewrite !get_set in Hget.
        cbn in Hk. destruct Hk as [<-|[<-|[<-|[<-|[]]]]];
          cbn [String.eqb Ascii.eqb Bool.eqb] in Hget, Hc.
        -- destruct (find_desc "ArticleTitle" e); injection Hget as <-;
             [apply strip_stripped | reflexivity].
        -- injection Hget as <-. apply abstract_of_stripped.
        -- injection Hget as <-. apply text_or_unknown_stripped.
        -- discriminate Hc.
  - unfold keywords_of. apply Forall_flat_map. apply Forall_forall.
    intros kw _. destruct (text kw) as [t|]; [|constructor].
    destruct (truthy t); repeat constructor. apply strip_stripped.
Qed.

Lemma stored_text_is_stripped_witness :
  stripped ("RESULTS: first" ++ nl ++ "RESULTS: second").
Proof.
  exact (proj1 (stored_text_is_stripped relabelled_article)
               "Abstract" _ (or_intror (or_introl eq_refl)) eq_refl).
Defined.

(** *** Author names *)

Lemma rstrip_blank (s : string) (c : ascii) :
  isspace c = true -> rstrip (s ++ String c "") = rstrip s.
Proof.
  intros Hc. induction s as [|c0 r IH].
  - cbn. rewrite Hc. reflexivity.
  - cbn [String.append]. rewrite !rstrip_cons, IH. reflexivity.
Qed.

Lemma strip_blank_left (s : string) : strip (" " ++ s) = strip s.
Proof.
  unfold strip. cbn [String.append]. rewrite rstrip_cons.
  destruct (rstrip s) as [|c r]; reflexivity.
Qed.

Lemma strip_blank_right (s : string) : strip (s ++ " ") = strip s.
Proof. unfold strip. rewrite rstrip_blank by reflexivity. reflexivity. Qed.

Lemma stripped_rstrip (s : string) : stripped s -> rstrip s = s.
Proof.
  intros H. unfold stripped in H. rewrite <- H at 1.
  rewrite rstrip_strip. exact H.
Qed.

Lemma lstrip_head (s : string) :
  lstrip s = "" \/ exists c r, lstrip s = String c r /\ isspace c = false.
Proof.
  induction s as [|c r IH]; [left; reflexivity|].
  cbn [lstrip]. destruct (isspace c) eqn:E; [exact IH|].
  right. exists c, r. split; [reflexivity | exact E].
Qed.

Lemma stripped_lstrip_app (a b : string) :
  stripped a -> truthy a = true -> lstrip (a ++ b) = a ++ b.
Proof.
  intros Ha Ta. unfold stripped, strip in Ha.
  destruct (lstrip_head (rstrip a)) as [H|[c [r [H Hc]]]]; rewrite H in Ha.
  - subst a. discriminate.
  - subst a. cbn. rewrite Hc. reflexivity.
Qed.

Lemma strip_full_name (fore last : string) :
  stripped fore -> stripped last ->
  truthy fore = true -> truthy last = true ->
  strip (fore ++ " " ++ last) = fore ++ " " ++ last.
Proof.
  intros Hf Hl Tf Tl. unfold strip.
  assert (rstrip (" " ++ last) = " " ++ last) as Hr.
  { cbn [String.append]. rewrite rstrip_cons, (stripped_rstrip last Hl).
    destruct last; [discriminate | reflexivity]. }
  rewrite rstrip_app by (rewrite Hr; reflexivity).
  rewrite Hr. apply stripped_lstrip_app; assumption.
Qed.

(** X12: the display name of an author entry: the collective name as it is
    when there is one; otherwise the stripped fore name or last name when
    the other is missing, with no stray blank, and ["Fore Last"] when both
    are there. *)
Theorem author_name_cases (a : Element) :
  (forall c, findtext_child "CollectiveName" a = Some c -> truthy c = true ->
             author_name a = c)
  /\ (otruthy (findtext_child "CollectiveName" a) = false ->
      (or_empty (findtext_child "ForeName" a) = "" ->
       author_name a = strip (or_empty (findtext_child "LastName" a)))
      /\ (or_empty (findtext_child "LastName" a) = "" ->
          author_name a = strip (or_empty (findtext_child "ForeName" a)))
      /\ (forall fore last,
             findtext_child "ForeName" a = Some fore ->
             findtext_child "LastName" a = Some last ->
             stripped fore -> stripped last ->
             truthy fore = true -> truthy last = true ->
             author_name a = fore ++ " " ++ last)).
Proof.
  split.
  - intros c Hc Tc. unfold author_name. rewrite Hc, Tc. reflexivity.
  - intros Hno.
    assert (author_name a
            = strip (or_empty (findtext_child "ForeName" a) ++ " "
                     ++ or_empty (findtext_child "LastName" a))) as Hname.
    { unfold author_name.
      destruct (findtext_child "CollectiveName" a) as [c|]; [|reflexivity].
      cbn in Hno. rewrite Hno. reflexivity. }
    split; [|split].
    + intros Hf. rewrite Hname, Hf. apply strip_blank_left.
    + intros Hl. rewrite Hname, Hl. apply strip_blank_right.
    + intros fore last Hf Hl Sf Sl Tf Tl. rewrite Hname, Hf, Hl.
      apply strip_full_name; assumption.
Qed.

Lemma author_name_cases_witness :
  author_name (author [Examples.leaf "LastName" "Iliff"]) = "Iliff"
  /\ author_name (author [Examples.leaf "LastName" "Iliff";
                          Examples.leaf "ForeName" "Jeffrey J"])
     = "Jeffrey J Iliff"
  /\ author_name (author [Examples.leaf "LastName" "Iliff";
                          Examples.leaf "CollectiveName" "The Glymphatic Group"])
     = "The Glymphatic Group".
Proof.
  split; [|split].
  - exact (proj1 (proj2 (author_name_cases
                          (author [Examples.leaf "LastName" "Iliff"])) eq_refl)
                 eq_refl).
  - exact (proj2 (proj2 (proj2 (author_name_cases
                                  (author [Examples.leaf "LastName" "Iliff";
                                           Examples.leaf "ForeName" "Jeffrey J"]))
                               eq_refl))
                 "Jeffrey J" "Iliff" eq_refl eq_refl eq_refl eq_refl eq_refl eq_refl).
  - exact (proj1 (author_name_cases
                   (author [Examples.leaf "LastName" "Iliff";
                            Examples.leaf "CollectiveName" "The Glymphatic Group"]))
                 "The Glymphatic Group" eq_refl eq_refl).
Defined.

End RecordProps.

Module LoadedProps.
Import Py ET Normalizer CustomPubMed Windows Records WindowProps RecordProps.
Local Open Scope Z_scope.

Lemma parse_page_keys (k : string) (root : Element) :
  In k common_keys -> Forall (present k) (parse_page root).
Proof.
  intros Hk. unfold parse_page. apply Forall_app. split.
  - apply Forall_forall. intros a Ha. apply in_map_iff in Ha.
    destruct Ha as [e [<- _]]. apply article_key_present.
    cbn in Hk |- *. tauto.
  - apply Forall_forall. intros a Ha. apply in_map_iff in Ha.
    destruct Ha as [e [<- _]]. apply book_key_present.
    cbn in Hk |- *. tauto.
Qed.

Lemma fetch_loop_forall (R : Remote) (P : dict -> Prop)
    (webenv query_key : option string) (batch_size : Z) (max_results : option Z) :
  (forall root, Forall P (parse_page root)) ->
  forall (fuel : nat) (articles : list dict) (fetched : Z) (log : list request)
         (result : list dict) (log' : list request),
    Forall P articles ->
    fetch_loop R fuel webenv query_key batch_size max_results articles fetched log
    = (Ret result, log') ->
    Forall P result.
Proof.
  intros Hpage. induction fuel as [|fuel IH];
    intros articles fetched log result log' Ha Hrun; [discriminate|].
  cbn [fetch_loop] in Hrun.
  assert (forall size,
             bind (fetch_page R webenv query_key fetched size)
                  (fun root =>
                     match parse_page root with
                     | [] => ret articles
                     | (_ :: _) as batch_articles =>
                         fetch_loop R fuel webenv query_key batch_size max_results
                                    (articles ++ batch_articles) (fetched + size)
                     end) log
             = (Ret result, log') -> Forall P result) as Hstep.
  { intros size Hb. unfold bind, fetch_page in Hb.
    destruct (efetch R (List.length log) webenv query_key fetched size)
      as [root| e |]; [|discriminate|discriminate].
    pose proof (Hpage root) as Hroot.
    destruct (parse_page root) as [|a batch].
    - injection Hb as <- _. exact Ha.
    - apply IH in Hb; [exact Hb|]. apply Forall_app. split; assumption. }
  destruct max_results as [m|].
  - destruct (ztruthy m && (fetched >=? m)).
    + injection Hrun as <- _. exact Ha.
    + exact (Hstep _ Hrun).
  - exact (Hstep _ Hrun).
Qed.

(** X13: every record [load_articles_by_date] returns carries the keys
    [PMID], [Authors], [PublicationDate], [Keywords] and [Copyright], so
    that reading [article["PMID"]] from a loaded record (line 521) cannot
    raise [KeyError]. *)
Theorem loaded_records_have_keys (R : Remote) (fuel : nat) (base_query : string)
    (start_dt end_dt : Calendar.datetime) (max_results : option Z)
    (log : list request) (articles : list dict) (log' : list request) (k : string) :
  load_articles_by_date R fuel base_query start_dt end_dt max_results log
  = (Ret articles, log') ->
  In k common_keys ->
  Forall (present k) articles.
Proof.
  intros Hrun Hk. unfold load_articles_by_date in Hrun.
  destruct fuel as [|fuel]; [discriminate|].
  rewrite recursive_load_first_branch in Hrun.
  unfold load_without_split, bind, search_with_history in Hrun.
  destruct (esearch R (List.length log) (full_query base_query start_dt end_dt))
    as [sr| e |]; [|discriminate|discriminate].
  destruct (count sr =? 0).
  - injection Hrun as <- _. constructor.
  - unfold fetch_articles in Hrun.
    eapply fetch_loop_forall; [|constructor|exact Hrun].
    intros root. apply parse_page_keys. exact Hk.
Qed.

Lemma loaded_records_have_keys_witness :
  exists articles log',
    load_articles_by_date (stock_remote 5) 11 "glymph*" window_start window_end
                          (Some 3) []
    = (Ret articles, log')
    /\ List.length articles = 3%nat
    /\ Forall (present "PMID") articles.
Proof.
  eexists. eexists. split; [vm_compute; reflexivity|].
  split; [reflexivity|].
  refine (loaded_records_have_keys (stock_remote 5) 11 "glymph*" window_start
            window_end (Some 3) [] _ _ "PMID" _ _).
  - vm_compute. reflexivity.
  - left. reflexivity.
Defined.

End LoadedProps.

Module CourseProps.
Import Py Calendar CustomPubMed ArticleLoader Windows Job Paging Course.
Import WindowProps JobProps PagingProps.
Local Open Scope Z_scope.

(** *** The ladder of windows *)

Lemma days_before_year_grows (y : Z) :
  2021 <= y -> 737790 <= _days_before_year y.
Proof.
  intros H. unfold _days_before_year.
  pose proof (Z.div_mod (y - 1) 4 ltac:(lia)).
  pose proof (Z.mod_pos_bound (y - 1) 4 ltac:(lia)).
  pose proof (Z.div_mod (y - 1) 100 ltac:(lia)).
  pose proof (Z.mod_pos_bound (y - 1) 100 ltac:(lia)).
  pose proof (Z.div_mod (y - 1) 400 ltac:(lia)).
  pose proof (Z.mod_pos_bound (y - 1) 400 ltac:(lia)).
  lia.
Qed.

(** X14: the ladder of date windows has no gap and no overlap: it starts on
    1950-01-01, every window starts the day after the one before it ends,
    and from 2021 on every window, the last one included, starts before
    it ends. *)
Theorem ladder_is_contiguous (this_year : Z) :
  contiguous (date_ranges this_year)
  /\ option_map fst (hd_error (date_ranges this_year)) = Some (_ymd2ord 1950 1 1)
  /\ (2021 <= this_year ->
      Forall (fun w => fst w < snd w) (date_ranges this_year)).
Proof.
  split; [|split].
  - unfold date_ranges. cbn [contiguous]. repeat split.
  - reflexivity.
  - intros Hy. unfold date_ranges.
    repeat (apply Forall_cons; [try (vm_compute; reflexivity)|]);
      [|constructor].
    cbn [fst snd]. pose proof (days_before_year_grows this_year Hy) as Hd.
    unfold _ymd2ord at 2. unfold _days_before_month. cbn [Z.sub Z.to_nat].
    change (_ymd2ord 2021 1 1) with 737791.
    replace (fold_right Z.add 0 (firstn (Z.to_nat (12 - 1)) _DAYS_IN_MONTH))
      with 334 by reflexivity.
    destruct ((12 >? 2) && _is_leap this_year); lia.
Qed.

Lemma ladder_is_contiguous_witness :
  Forall (fun w => fst w < snd w) (date_ranges 2026).
Proof.
  apply (proj2 (proj2 (ladder_is_contiguous 2026))). lia.
Defined.

(** *** The status only moves forward *)

Lemma nondecreasing_bound (mu : loader -> Z) (j : job) (n : nat) :
  nondecreasing mu j -> mu (nth n (history j) (current j)) <= mu (current j).
Proof.
  intros Hm.
  pose proof (Hm n (Nat.max n (List.length (history j))) ltac:(lia)) as H.
  rewrite (nth_overflow (history j) (current j)
                        (n := Nat.max n (List.length (history j)))) in H by lia.
  exact H.
Qed.

Lemma nondecreasing_write (mu : loader -> Z) (f : loader -> loader) (j : job) :
  nondecreasing mu j ->
  mu (current j) <= mu (f (current j)) ->
  nondecreasing mu {| current := f (current j);
                      history := history j ++ [f (current j)];
                      requests := requests j |}.
Proof.
  intros Hm Hp n m Hnm. cbn [current history].
  rewrite !(nth_snoc (history j) (current j)).
  destruct (Nat.ltb_spec n (List.length (history j))) as [Hn|Hn];
    destruct (Nat.ltb_spec m (List.length (history j))) as [Hm'|Hm'].
  - apply Hm. exact Hnm.
  - pose proof (nondecreasing_bound mu j n Hm). lia.
  - lia.
  - lia.
Qed.

Lemma forward_write (f : loader -> loader) (j : job) :
  forward j ->
  0 <= rank (status (f (current j))) ->
  rank (status (current j)) <= rank (status (f (current j))) ->
  forward {| current := f (current j);
             history := history j ++ [f (current j)];
             requests := requests j |}.
Proof.
  intros [Hm Hpos] H0 Hle. split.
  - apply (nondecreasing_write (fun l => rank (status l))); assumption.
  - intros n. cbn [current history].
    rewrite (nth_snoc (history j) (current j)).
    destruct (n <? List.length (history j))%nat; [apply Hpos | exact H0].
Qed.

Lemma forward_same (r : Z) (j j' : job) :
  same_object j j' -> forward_upto r j -> forward_upto r j'.
Proof.
  intros [Hc Hh] [[Hm Hpos] Hr]. split; [split|].
  - intros n m Hnm. rewrite Hc, Hh. apply Hm. exact Hnm.
  - intros n. rewrite Hc, Hh. apply Hpos.
  - rewrite Hc. exact Hr.
Qed.

(** A write that leaves the status as it is. *)
Lemma forward_keep (r : Z) (f : loader -> loader) (j : job) :
  (forall l, status (f l) = status l) ->
  forward_upto r j ->
  forward_upto r {| current := f (current j);
                    history := history j ++ [f (current j)];
                    requests := requests j |}.
Proof.
  intros Hf [Hfw Hr]. split.
  - apply forward_write; [exact Hfw | | rewrite Hf; lia].
    rewrite Hf. pose proof (proj2 Hfw (List.length (history j))) as H.
    rewrite nth_overflow in H by lia. exact H.
  - cbn [current]. rewrite Hf. exact Hr.
Qed.

(** A write of a status of a rank no lower. *)
Lemma forward_step (r r' : Z) (s : string) (f : loader -> loader) (j : job) :
  (forall l, status (f l) = s) ->
  rank s = r' -> 0 <= r' -> r <= r' ->
  forward_upto r j ->
  forward_upto r' {| current := f (current j);
                     history := history j ++ [f (current j)];
                     requests := requests j |}.
Proof.
  intros Hf Hs H0 Hle [Hfw Hr]. split.
  - apply forward_write; [exact Hfw | rewrite Hf, Hs; lia | rewrite Hf, Hs; lia].
  - cbn [current]. rewrite Hf, Hs. lia.
Qed.

Ltac forward_keep_step :=
  first
    [ apply triple_file; intros j Hj; split; [exact (proj1 Hj) | exact Hj]
    | apply triple_write; intros j Hj; apply forward_keep;
      [intros l; reflexivity | exact Hj]
    | apply triple_call; intros j j' Hj Hsame; split; [|intros ?];
      first [ exact (forward_same _ j j' Hsame Hj)
            | exact (proj1 (forward_same _ j j' Hsame Hj)) ] ].

Ltac forward_to r s :=
  apply triple_write; intros j Hj;
  apply (forward_step r _ s);
  [intros l; reflexivity | reflexivity | lia | lia | exact Hj].

Section Worker.

Variable R : Remote.
Variable fs_ok : file_op -> bool.
Variable fuel : nat.
Variable search_term : string.
Variable max_results : option Z.

Lemma windows_forward (r : Z) (ranges : list (datetime * datetime)) :
  forall (all_articles : list dict) (total_fetched : Z),
    triple (forward_upto r)
           (windows R fuel search_term max_results ranges all_articles total_fetched)
           (fun _ => forward_upto r) forward.
Proof.
  induction ranges as [|[start_date end_date] rest IH];
    intros all_articles total_fetched; cbn [windows].
  - apply triple_ret. auto.
  - destruct (oztruthy max_results && _); [apply triple_ret; auto|].
    keep (forward_upto r); [forward_keep_step|].
    keep (forward_upto r); [forward_keep_step|].
    destruct (oztruthy max_results && _); [apply triple_ret; auto | apply IH].
Qed.

Lemma write_txt_forward (r : Z) (all_articles : list dict) :
  forall i : nat,
    triple (forward_upto r) (write_txt fs_ok i all_articles)
           (fun _ => forward_upto r) forward.
Proof.
  induction all_articles as [|a rest IH]; intros i; cbn [write_txt].
  - apply triple_ret. auto.
  - keep (forward_upto r); [forward_keep_step | apply IH].
Qed.

Lemma task_forward (this_year : Z) :
  triple (forward_upto 0)
         (task R fs_ok fuel search_term max_results this_year)
         (fun _ => forward) forward.
Proof.
  unfold task.
  do 2 (keep (forward_upto 0); [forward_keep_step|]).
  keep (forward_upto 1); [forward_to 0 "Starting..."%string|].
  do 2 (keep (forward_upto 1); [forward_keep_step|]).
  keep (forward_upto 2); [forward_to 1 "Downloading..."%string|].
  keep (forward_upto 2); [apply windows_forward|].
  keep (forward_upto 3); [forward_to 2 "Save article IDs using pickle"%string|].
  keep (forward_upto 3); [forward_keep_step|].
  keep (forward_upto 4); [forward_to 3 "Save articles to JSON"%string|].
  keep (forward_upto 4); [forward_keep_step|].
  keep (forward_upto 5); [forward_to 4 "Save articles to txt"%string|].
  keep (forward_upto 5); [forward_keep_step|].
  keep (forward_upto 5); [apply write_txt_forward|].
  keep (forward_upto 6); [forward_to 5 "Creating ZIP archive"%string|].
  keep (forward_upto 6); [forward_keep_step|].
  apply triple_write. intros j Hj.
  exact (proj1 (forward_step 6 7 "Completed"%string
                  (set_status "Completed") j
                  (fun l => eq_refl) eq_refl ltac:(lia) ltac:(lia) Hj)).
Qed.

End Worker.

Lemma launch_forward : forward_upto 0 (launch init).
Proof.
  split; [split|cbn; lia].
  - intros n m _. cbn [launch history current].
    destruct n as [|[|n]], m as [|[|m]]; cbn; lia.
  - intros n. cbn [launch history current]. destruct n as [|[|n]]; cbn; lia.
Qed.

(** X15: the status of a job never regresses: every status a poll reads is
    one of Idle, Starting..., Downloading..., Save article IDs using
    pickle, Save articles to JSON, Save articles to txt, Creating ZIP
    archive, Completed, and of two polls the later one reads a status
    that comes no earlier in this order, whatever the remote service and
    the file system do. *)
Theorem status_never_regresses (R : Remote) (fs_ok : file_op -> bool)
    (fuel : nat) (search_term : string) (max_results : option Z)
    (this_year : Z) (n m : nat) :
  (n <= m)%nat ->
  0 <= rank (fst (fst (get_progress
                         (snd (load_articles R fs_ok fuel search_term
                                             max_results this_year init)) n)))
    <= rank (fst (fst (get_progress
                         (snd (load_articles R fs_ok fuel search_term
                                             max_results this_year init)) m))).
Proof.
  intros Hnm.
  pose proof (task_forward R fs_ok fuel search_term max_results this_year
                           (launch init) launch_forward) as H.
  unfold load_articles.
  assert (forward (snd (task R fs_ok fuel search_term max_results this_year
                             (launch init)))) as [Hnd Hpos]
    by (destruct (task R fs_ok fuel search_term max_results this_year
                       (launch init)) as [[[]| e |] j]; exact H).
  split; [apply Hpos | exact (Hnd n m Hnm)].
Qed.

Lemma status_never_regresses_witness :
  0 <= rank (fst (fst (get_progress
                         (snd (load_articles (five_recent "(Brain) AND (glymph*)")
                                 disk_ok 12 "(Brain) AND (glymph*)" (Some 100)
                                 2026 init)) 3)))
    <= rank (fst (fst (get_progress
                         (snd (load_articles (five_recent "(Brain) AND (glymph*)")
                                 disk_ok 12 "(Brain) AND (glymph*)" (Some 100)
                                 2026 init)) 22))).
Proof.
  apply (status_never_regresses (five_recent "(Brain) AND (glymph*)") disk_ok 12
           "(Brain) AND (glymph*)" (Some 100) 2026 3 22).
  lia.
Defined.

(** *** Progress stays within the total *)

Lemma triple_call_result {A} (P : job -> Prop) (m : M A) (good : A -> Prop)
    (Q : A -> job -> Prop) (E : job -> Prop) :
  (forall log a log', m log = (Ret a, log') -> good a) ->
  (forall j j', P j -> same_object j j' ->
                E j' /\ forall a, good a -> Q a j') ->
  triple P (call m) Q E.
Proof.
  intros Hgood H j Hj. unfold call.
  destruct (m (requests j)) as [r log] eqn:Em.
  destruct (H j {| current := current j; history := history j; requests := log |}
              Hj (conj eq_refl eq_refl)) as [HE HQ].
  destruct r as [a| e |]; [|exact HE|exact HE].
  apply HQ. exact (Hgood _ _ _ Em).
Qed.

Lemma in_range_same (j j' : job) :
  same_object j j' -> always_in_range j -> always_in_range j'.
Proof. intros [Hc Hh] H. unfold always_in_range. rewrite Hc, Hh. exact H. Qed.

Lemma in_range_write (f : loader -> loader) (j : job) :
  always_in_range j ->
  in_range (f (current j)) ->
  always_in_range {| current := f (current j);
                     history := history j ++ [f (current j)];
                     requests := requests j |}.
Proof.
  intros [Hh _] Hf. split; [|exact Hf].
  cbn [history]. apply Forall_app. split; [exact Hh|].
  apply Forall_cons; [exact Hf | constructor].
Qed.

Section Ranged.

Variable R : Remote.
Variable fs_ok : file_op -> bool.
Variable fuel : nat.
Variable search_term : string.
Variable m : Z.
Hypothesis R_honest : honest R.
Hypothesis m_positive : 0 < m.

Lemma not_started_keep (f : loader -> loader) (j : job) :
  (forall l, progress (f l) = progress l /\ total (f l) = total l) ->
  not_started j ->
  not_started {| current := f (current j);
                 history := history j ++ [f (current j)];
                 requests := requests j |}.
Proof.
  intros Hf [Hr Hp]. destruct (Hf (current j)) as [Hfp Hft]. split.
  - apply in_range_write; [exact Hr|]. unfold in_range.
    rewrite Hfp, Hft. exact (proj2 Hr).
  - cbn [current]. rewrite Hfp. exact Hp.
Qed.

Lemma started_keep (f : loader -> loader) (j : job) :
  (forall l, progress (f l) = progress l /\ total (f l) = total l) ->
  started m j ->
  started m {| current := f (current j);
             history := history j ++ [f (current j)];
             requests := requests j |}.
Proof.
  intros Hf [Hr Ht]. destruct (Hf (current j)) as [Hfp Hft]. split.
  - apply in_range_write; [exact Hr|]. unfold in_range.
    rewrite Hfp, Hft. exact (proj2 Hr).
  - cbn [current]. rewrite Hft. exact Ht.
Qed.

Lemma windows_in_range (ranges : list (datetime * datetime)) :
  forall (all_articles : list dict) (total_fetched : Z),
    0 <= total_fetched <= m ->
    triple (started m)
           (windows R fuel search_term (Some m) ranges all_articles total_fetched)
           (fun _ => started m) always_in_range.
Proof.
  induction ranges as [|[start_date end_date] rest IH];
    intros all_articles total_fetched Htf; cbn [windows].
  - apply triple_ret. auto.
  - cbn [oztruthy]. rewrite (ztruthy_nonzero m) by lia. cbn [andb].
    destruct (Z.geb_spec total_fetched m) as [Hge|Hlt];
      [apply triple_ret; auto|].
    apply (triple_bind _ _
             (fun articles j =>
                started m j
                /\ Z.of_nat (List.length articles) <= m - total_fetched)).
    + apply (triple_call_result _ _
               (fun articles => Z.of_nat (List.length articles) <= m - total_fetched)).
      * intros log articles log' Hrun. unfold load_articles_by_date in Hrun.
        destruct (recursive_load_fetch_count R fuel search_term start_date
                    end_date (Fin (m - total_fetched)) log articles log'
                    R_honest ltac:(cbn; lia) Hrun) as [sr [_ Hlen]].
        unfold min3 in Hlen. lia.
      * intros j j' [Hr Ht] Hsame. split.
        -- exact (in_range_same j j' Hsame Hr).
        -- intros articles Hlen. split; [|exact Hlen]. split.
           ++ exact (in_range_same j j' Hsame Hr).
           ++ destruct Hsame as [-> _]. exact Ht.
    + intros articles.
      apply (triple_bind _ _ (fun _ j =>
               started m j
               /\ Z.of_nat (List.length articles) <= m - total_fetched)).
      * apply triple_write. intros j [[Hr Ht] Hlen]. split; [|exact Hlen]. split.
        -- apply in_range_write; [exact Hr|]. unfold in_range.
           cbn [progress total set_progress]. rewrite Ht. lia.
        -- cbn. exact Ht.
      * intros _.
        destruct (Z.geb_spec (total_fetched + Z.of_nat (List.length articles)) m).
        -- apply triple_ret. intros j Hj. exact (proj1 Hj).
        -- intros j [Hj Hlen].
           apply (IH (all_articles ++ articles)
                     (total_fetched + Z.of_nat (List.length articles))
                     ltac:(lia) j Hj).
Qed.

Ltac started_step :=
  first
    [ apply triple_file; intros j Hj; split; [exact (proj1 Hj) | exact Hj]
    | apply triple_write; intros j Hj; apply started_keep;
      [intros l; split; reflexivity | exact Hj]
    | apply triple_call; intros j j' [Hr Ht] Hsame; split; [|intros ?];
      first [ exact (in_range_same j j' Hsame Hr)
            | split; [exact (in_range_same j j' Hsame Hr)
                     | destruct Hsame as [-> _]; exact Ht] ] ].

Ltac not_started_step :=
  first
    [ apply triple_file; intros j Hj; split; [exact (proj1 Hj) | exact Hj]
    | apply triple_write; intros j Hj; apply not_started_keep;
      [intros l; split; reflexivity | exact Hj]
    | apply triple_call; intros j j' [Hr Hp] Hsame; split; [|intros ?];
      first [ exact (in_range_same j j' Hsame Hr)
            | split; [exact (in_range_same j j' Hsame Hr)
                     | destruct Hsame as [-> _]; exact Hp] ] ].

Lemma write_txt_in_range (all_articles : list dict) :
  forall i : nat,
    triple (started m) (write_txt fs_ok i all_articles)
           (fun _ => started m) always_in_range.
Proof.
  induction all_articles as [|a rest IH]; intros i; cbn [write_txt].
  - apply triple_ret. auto.
  - keep (started m); [started_step | apply IH].
Qed.

Lemma task_in_range (this_year : Z) :
  triple not_started
         (task R fs_ok fuel search_term (Some m) this_year)
         (fun _ => always_in_range) always_in_range.
Proof.
  unfold task.
  do 3 (keep not_started; [not_started_step|]).
  keep not_started.
  { apply triple_write. intros j [Hr Hp]. split; [|reflexivity].
    apply in_range_write; [exact Hr|].
    pose proof (proj2 Hr) as Hc. unfold in_range in *. cbn. lia. }
  keep not_started; [not_started_step|].
  keep (started m).
  { apply triple_write. intros j [Hr Hp]. split.
    - apply in_range_write; [exact Hr|]. unfold in_range. cbn.
      rewrite (ztruthy_nonzero m) by lia. lia.
    - cbn. rewrite (ztruthy_nonzero m) by lia. reflexivity. }
  keep (started m); [apply windows_in_range; lia|].
  do 6 (keep (started m); [started_step|]).
  keep (started m); [apply write_txt_in_range|].
  do 2 (keep (started m); [started_step|]).
  apply triple_write. intros j [Hr Ht]. apply in_range_write; [exact Hr|].
  exact (proj2 Hr).
Qed.

End Ranged.

Lemma launch_not_started : not_started (launch init).
Proof.
  split; [|reflexivity]. split; [repeat constructor|]; unfold in_range; cbn; lia.
Qed.

(** X16: with a positive requested maximum and a remote that never answers a
    page with more records than asked, every poll of a job reads
    [0 <= progress <= total]. *)
Theorem progress_within_total (R : Remote) (fs_ok : file_op -> bool)
    (fuel : nat) (search_term : string) (m this_year : Z) (n : nat) :
  honest R ->
  0 < m ->
  0 <= progress_of (get_progress
                      (snd (load_articles R fs_ok fuel search_term (Some m)
                                          this_year init)) n)
    <= snd (get_progress
              (snd (load_articles R fs_ok fuel search_term (Some m)
                                  this_year init)) n).
Proof.
  intros Hhon Hm.
  pose proof (task_in_range R fs_ok fuel search_term m Hhon Hm this_year
                            (launch init) launch_not_started) as H.
  unfold load_articles.
  assert (always_in_range (snd (task R fs_ok fuel search_term (Some m)
                                     this_year (launch init)))) as [Hh Hc]
    by (destruct (task R fs_ok fuel search_term (Some m) this_year
                       (launch init)) as [[[]| e |] j]; exact H).
  unfold get_progress, progress_of. cbn [fst snd].
  destruct (Nat.ltb_spec n (List.length (history (snd (task R fs_ok fuel
              search_term (Some m) this_year (launch init)))))) as [Hn|Hn].
  - rewrite Forall_forall in Hh. apply Hh. apply nth_In. exact Hn.
  - rewrite nth_overflow by exact Hn. exact Hc.
Qed.

Lemma progress_within_total_witness :
  0 <= progress_of (get_progress
                      (snd (load_articles (stock_remote 40) disk_ok 12
                              "(Brain) AND (glymph*)" (Some 100) 2026 init)) 9)
    <= snd (get_progress
              (snd (load_articles (stock_remote 40) disk_ok 12
                      "(Brain) AND (glymph*)" (Some 100) 2026 init)) 9).
Proof.
  apply (progress_within_total (stock_remote 40) disk_ok 12
           "(Brain) AND (glymph*)" 100 2026 9).
  - apply stock_remote_honest.
  - lia.
Defined.

(** *** The total of a job without limit *)

Lemma triple_first_search (R : Remote) (term : string)
    (Q : SearchResults -> job -> Prop) (E : job -> Prop) :
  (forall j sr, no_request j -> esearch R 0 term = Ret sr ->
                Q sr {| current := current j; history := history j;
                        requests := [ESearch term] |}) ->
  (forall j, no_request j ->
             E {| current := current j; history := history j;
                  requests := [ESearch term] |}) ->
  triple no_request (call (search_with_history R term)) Q E.
Proof.
  intros HQ HE j Hj. unfold call, search_with_history.
  rewrite Hj. cbn [List.length app].
  destruct (esearch R 0 term) as [sr| e |] eqn:Es.
  - apply HQ; [exact Hj | reflexivity].
  - apply HE. exact Hj.
  - apply HE. exact Hj.
Qed.

Ltac no_request_step :=
  first
    [ apply triple_file; intros j Hj; split; [exact I | exact Hj]
    | apply triple_write; intros j Hj; exact Hj ].

Ltac total_is_step :=
  first
    [ apply triple_file; intros j Hj; split; [exact I | exact Hj]
    | apply triple_write; intros j Hj; exact Hj ].

Lemma task_unlimited (R : Remote) (fs_ok : file_op -> bool) (fuel : nat)
    (search_term : string) (max_results : option Z) (this_year : Z)
    (search_results : SearchResults) :
  limit max_results = None ->
  esearch R 0 search_term = Ret search_results ->
  triple no_request
         (task R fs_ok fuel search_term max_results this_year)
         (fun _ => total_is (count search_results)) anything.
Proof.
  intros Hlim Hs. unfold task.
  do 4 (keep no_request; [no_request_step|]).
  apply (triple_bind _ _ (fun sr _ => sr = search_results)).
  { apply triple_first_search; [|intros; exact I].
    intros j sr _ Hsr. rewrite Hs in Hsr. injection Hsr as <-. reflexivity. }
  intros sr.
  keep (total_is (count search_results)).
  { apply triple_write. intros j ->. unfold total_is. cbn.
    unfold limit in Hlim. destruct max_results as [m|]; [|reflexivity].
    destruct (ztruthy m); [discriminate | reflexivity]. }
  keep (total_is (count search_results)); [apply windows_total|].
  do 6 (keep (total_is (count search_results)); [total_is_step|]).
  keep (total_is (count search_results)); [apply write_txt_total|].
  do 2 (keep (total_is (count search_results)); [total_is_step|]).
  apply triple_write. intros j Hj. exact Hj.
Qed.

(** X17: without a requested maximum ([None], or zero), a job that completes
    leaves in [total] the count that its first search, the one of the
    bare search term, reported. *)
Theorem unlimited_total_is_count (R : Remote) (fs_ok : file_op -> bool)
    (fuel : nat) (search_term : string) (max_results : option Z)
    (this_year : Z) (search_results : SearchResults) (j : job) :
  limit max_results = None ->
  esearch R 0 search_term = Ret search_results ->
  load_articles R fs_ok fuel search_term max_results this_year init
  = (Ret tt, j) ->
  total (current j) = count search_results.
Proof.
  intros Hlim Hs Hrun.
  pose proof (task_unlimited R fs_ok fuel search_term max_results this_year
                             search_results Hlim Hs (launch init) eq_refl) as H.
  unfold load_articles in Hrun. rewrite Hrun in H. exact H.
Qed.

Lemma unlimited_total_is_count_witness :
  total (current (snd (load_articles (five_recent "(Brain) AND (glymph*)")
                         disk_ok 12 "(Brain) AND (glymph*)" None 2026 init)))
  = 5.
Proof.
  refine (unlimited_total_is_count (five_recent "(Brain) AND (glymph*)") disk_ok
            12 "(Brain) AND (glymph*)" None 2026
            {| count := 5; WebEnv := Some "MCID_1"%string;
               QueryKey := Some "1"%string |} _ eq_refl eq_refl _).
  vm_compute. reflexivity.
Defined.

(** *** A job always ends *)

Lemma ends_ret {A} (a : A) : ends (jret a).
Proof. intros j. discriminate. Qed.

Lemma ends_bind {A B} (m : J A) (k : A -> J B) :
  ends m -> (forall a, ends (k a)) -> ends (jbind m k).
Proof.
  intros Hm Hk j. unfold jbind. pose proof (Hm j) as H.
  destruct (m j) as [[a| e |] j']; cbn [fst] in *.
  - apply Hk.
  - discriminate.
  - contradiction.
Qed.

Lemma ends_write (f : loader -> loader) : ends (write f).
Proof. intros j. discriminate. Qed.

Lemma ends_file (fs_ok : file_op -> bool) (op : file_op) : ends (file fs_ok op).
Proof. intros j. unfold file. destruct (fs_ok op); discriminate. Qed.

Lemma ends_call {A} (m : M A) :
  (forall log, fst (m log) <> Timeout) -> ends (call m).
Proof.
  intros H j. unfold call. pose proof (H (requests j)) as Hj.
  destruct (m (requests j)) as [r log]. exact Hj.
Qed.

Lemma ends_write_txt (fs_ok : file_op -> bool) (all_articles : list dict) :
  forall i, ends (write_txt fs_ok i all_articles).
Proof.
  induction all_articles as [|a rest IH]; intros i; cbn [write_txt].
  - apply ends_ret.
  - apply ends_bind; [apply ends_file | intros _; apply IH].
Qed.

Lemma ends_windows (R : Remote) (fuel : nat) (search_term : string)
    (max_results : option Z) :
  responsive R -> (11 <= fuel)%nat ->
  forall (ranges : list (datetime * datetime)) (all_articles : list dict)
         (total_fetched : Z),
    ends (windows R fuel search_term max_results ranges all_articles total_fetched).
Proof.
  intros Hresp Hfuel. induction ranges as [|[start_date end_date] rest IH];
    intros all_articles total_fetched; cbn [windows].
  - apply ends_ret.
  - destruct (oztruthy max_results
              && (total_fetched >=? match max_results with
                                    | Some m => m
                                    | None => 0
                                    end)) eqn:Hstop; [apply ends_ret|].
    apply ends_bind.
    + apply ends_call. intros log. unfold load_articles_by_date.
      apply recursive_load_answers; [exact Hresp | | exact Hfuel].
      destruct max_results as [m|]; [|exact I].
      cbn [oztruthy] in Hstop. destruct (ztruthy m) eqn:Hm; [|exact I].
      cbn [andb] in Hstop. cbn [nonzero].
      destruct (Z.geb_spec total_fetched m); [discriminate | lia].
    + intros articles. apply ends_bind; [apply ends_write|].
      intros _.
      destruct (oztruthy max_results
                && (total_fetched + Z.of_nat (List.length articles) >=? _));
        [apply ends_ret | apply IH].
Qed.

(** X18: a job always ends: whatever the requested maximum, the remote
    service and the file system, the worker completes or stops on an
    exception; eleven turns of each loop are enough. *)
Theorem job_always_ends (R : Remote) (fs_ok : file_op -> bool) (fuel : nat)
    (search_term : string) (max_results : option Z) (this_year : Z) :
  responsive R ->
  (11 <= fuel)%nat ->
  fst (load_articles R fs_ok fuel search_term max_results this_year init)
  <> Timeout.
Proof.
  intros Hresp Hfuel. unfold load_articles.
  assert (ends (task R fs_ok fuel search_term max_results this_year)) as H.
  { unfold task.
    repeat first
      [ apply ends_write
      | apply ends_bind; [|intros ?]
      | apply ends_file
      | apply ends_write_txt
      | apply ends_windows; assumption
      | apply ends_call; intros log; unfold search_with_history; cbn [fst];
        apply (proj1 Hresp) ]. }
  apply H.
Qed.

Lemma job_always_ends_witness :
  fst (load_articles (stock_remote 20000) disk_ok 11 "(Brain) AND (glymph*)"
                     None 2026 init)
  <> Timeout.
Proof.
  apply (job_always_ends (stock_remote 20000) disk_ok 11).
  - split; intros; discriminate.
  - lia.
Defined.

End CourseProps.

Module GateExtraProps.
Import Py RateLimiter Gate GateProps.
Local Open Scope Z_scope.

Section Timing.

Variable elapse : nat -> N.
Variable http_ok : nat -> bool.

Lemma get_keeps_three (fuel i : nat) (c : client) :
  (List.length (_requestsMade c) <= 3)%nat ->
  (List.length (_requestsMade (snd (_get elapse http_ok fuel i c))) <= 3)%nat.
Proof.
  intros Hc. unfold _get.
  destruct (gate elapse fuel c) as [c1|] eqn:Hg; [|exact Hc].
  destruct (gate_passes elapse fuel c c1 Hg) as [Hlen _].
  unfold _rateLimit in Hlen.
  destruct (http_ok i).
  - unfold now. cbn [snd _requestsMade pass]. rewrite length_app. cbn. lia.
  - cbn [snd _requestsMade pass]. lia.
Qed.

Lemma session_keeps_three (fuel n : nat) :
  forall (i : nat) (c : client),
    (List.length (_requestsMade c) <= 3)%nat ->
    (List.length (_requestsMade (snd (session elapse http_ok fuel n i c))) <= 3)%nat.
Proof.
  induction n as [|n IH]; intros i c Hc; [exact Hc|].
  cbn [session]. pose proof (get_keeps_three fuel i c Hc) as H.
  destruct (_get elapse http_ok fuel i c) as [[[]| e |] c']; cbn [snd] in *.
  - apply IH. exact H.
  - exact H.
  - exact H.
Qed.

End Timing.

(** X19: however many requests a client sends, however long they take and
    whichever of them fail, the list of timestamps it keeps never holds
    more than three entries after a call of [_get]. *)
Theorem timestamps_stay_bounded (elapse : nat -> N) (http_ok : nat -> bool)
    (t0 : Z) (fuel n : nat) :
  (List.length
     (_requestsMade (snd (session elapse http_ok fuel n 0 (fresh t0)))) <= 3)%nat.
Proof. apply session_keeps_three. cbn. lia. Qed.

End GateExtraProps.
